(** * Unused-import analyzer ([src/analyzer.ts]): a shallow embedding

    [analyzeFile] parses a file with the TypeScript compiler API, collects
    every identifier spelled outside import declarations, classifies each
    import binding by membership of its local name in that set, and emits
    one [vscode.TextEdit] per import declaration that has an unused binding.

    The TypeScript parser and the VS Code value classes are libraries, not
    code of the analyzer.  The syntax tree is therefore data here: a
    [SourceFile] is the tree that [ts.createSourceFile] returned for its
    [text], and the few library functions the analyzer calls on it
    ([forEachChild], [getText], [getLineAndCharacterOfPosition],
    [new Range], [TextEdit.delete], [TextEdit.replace]) are written out
    after their library definitions. *)

From Stdlib Require Import Ascii String.
From stdpp Require Import base decidable option list gmap strings.

Local Open Scope nat_scope.
Set Warnings "-register-all".

(** ** The syntax tree *)

Module ts.

(** The node kinds that occur in the trees below.  The analyzer itself only
    ever asks [isImportDeclaration], [isIdentifier], [isNamedImports] and
    [isNamespaceImport]; all other kinds are opaque labels to it. *)
Inductive SyntaxKind :=
| EndOfFileToken
| NumericLiteral
| StringLiteral
| TypeReference
| ParameterNode
| PropertyAccessExpression
| CallExpression
| ObjectLiteralExpression
| PropertyAssignment
| ShorthandPropertyAssignment
| Block
| VariableStatement
| ExpressionStatement
| VariableDeclaration
| VariableDeclarationList
| FunctionDeclaration
| ExportDeclaration
| NamedExports
| ExportSpecifier.

(** [tr_start] is [node.getStart(sourceFile)] (the first character of the
    node's first token, leading trivia skipped) and [tr_end] is
    [node.getEnd()]. *)
Record TextRange := mkTextRange { tr_start : nat; tr_end : nat }.

(** [id_text] is the [text] property: the identifier's spelling. *)
Record Identifier := mkIdentifier { id_range : TextRange; id_text : string }.

Record ImportSpecifier := mkImportSpecifier {
  spec_range : TextRange;
  spec_isTypeOnly : bool;
  spec_propertyName : option Identifier;
  spec_name : Identifier
}.

Inductive NamedImportBindings :=
| NamedImports (range : TextRange) (elems : list ImportSpecifier)
| NamespaceImport (range : TextRange) (name : Identifier).

Record ImportClause := mkImportClause {
  clause_isTypeOnly : bool;
  clause_name : option Identifier;
  clause_namedBindings : option NamedImportBindings
}.

(** [moduleSpecifier] is an expression node; the analyzer reads its source
    text only. *)
Record ImportDeclaration := mkImportDeclaration {
  decl_range : TextRange;
  importClause : option ImportClause;
  moduleSpecifier : TextRange
}.

Inductive Node :=
| IdentifierNode (i : Identifier)
| ImportDeclarationNode (d : ImportDeclaration)
| OtherNode (kind : SyntaxKind) (range : TextRange) (children : list Node).

Record Diagnostic := mkDiagnostic { diag_start : nat; diag_code : nat }.

(** The parser is tolerant: it returns a tree for every text and records
    syntax errors in [parseDiagnostics]. *)
Record SourceFile := mkSourceFile {
  text : string;
  statements : list Node;
  endOfFileToken : TextRange;
  parseDiagnostics : list Diagnostic
}.

Definition node_range (n : Node) : TextRange :=
  match n with
  | IdentifierNode i => id_range i
  | ImportDeclarationNode d => decl_range d
  | OtherNode _ r _ => r
  end.

(** [ts.forEachChild(sourceFile, cb)] calls [cb] on the statements and then
    on the end-of-file token. *)
Definition forEachChild_SourceFile (sourceFile : SourceFile) : list Node :=
  statements sourceFile ++ [OtherNode EndOfFileToken (endOfFileToken sourceFile) []].

(** [node.getText(sourceFile)]: the text from [getStart] to [getEnd]. *)
Definition getText (sourceFile : SourceFile) (r : TextRange) : string :=
  String.substring (tr_start r) (tr_end r - tr_start r) (text sourceFile).

(** *** Line map ([computeLineStarts], [getLineAndCharacterOfPosition]) *)

Definition CR : ascii := "013"%char.
Definition LF : ascii := "010"%char.

(** The starts of the lines of [s], whose first character has offset [pos];
    [lineStart] is the start of the line being scanned.  A line ends at a
    line feed, at a carriage return, or at a carriage return followed by a
    line feed. *)
Fixpoint lineStartsFrom (s : string) (pos lineStart : nat) : list nat :=
  match s with
  | EmptyString => [lineStart]
  | String c s' =>
      if Ascii.eqb c CR then
        match s' with
        | String c' s'' =>
            if Ascii.eqb c' LF
            then lineStart :: lineStartsFrom s'' (pos + 2) (pos + 2)
            else lineStart :: lineStartsFrom s' (pos + 1) (pos + 1)
        | EmptyString => lineStart :: lineStartsFrom s' (pos + 1) (pos + 1)
        end
      else if Ascii.eqb c LF then lineStart :: lineStartsFrom s' (pos + 1) (pos + 1)
      else lineStartsFrom s' (pos + 1) lineStart
  end.

Definition computeLineStarts (s : string) : list nat := lineStartsFrom s 0 0.

(** The line that holds [position] is the last one that starts at or before
    it; [acc] is the running result (line number, line start). *)
Fixpoint lineAndStart (lineStarts : list nat) (position : nat) (acc : nat * nat) : nat * nat :=
  match lineStarts with
  | [] => acc
  | s :: rest =>
      if decide (s ≤ position) then lineAndStart rest position (S (fst acc), s) else acc
  end.

Record LineAndCharacter := mkLineAndCharacter { line : nat; character : nat }.

Definition getLineAndCharacterOfPosition (sourceFile : SourceFile) (position : nat)
    : LineAndCharacter :=
  match computeLineStarts (text sourceFile) with
  | [] => mkLineAndCharacter 0 position
  | s0 :: rest =>
      let '(l, s) := lineAndStart rest position (0, s0) in
      mkLineAndCharacter l (position - s)
  end.

End ts.

(** ** The editor's value classes *)

Module vscode.

Record Position := mkPosition { line : nat; character : nat }.

Definition isBefore (a b : Position) : bool :=
  if decide (line a < line b) then true
  else if decide (line b < line a) then false
  else bool_decide (character a < character b).

Definition isBeforeOrEqual (a b : Position) : bool :=
  if decide (line a < line b) then true
  else if decide (line b < line a) then false
  else bool_decide (character a ≤ character b).

Record Range := mkRange { start : Position; end_ : Position }.

(** [new vscode.Range(startLine, startCharacter, endLine, endCharacter)]:
    the constructor orders its two positions. *)
Definition newRange (startLine startCharacter endLine endCharacter : nat) : Range :=
  let s := mkPosition startLine startCharacter in
  let e := mkPosition endLine endCharacter in
  if isBefore s e then mkRange s e else mkRange e s.

Record TextEdit := mkTextEdit { range : Range; newText : string }.

(** [TextEdit.delete(range)] is the edit with the empty replacement text. *)
Definition TextEdit_delete (r : Range) : TextEdit := mkTextEdit r "".
Definition TextEdit_replace (r : Range) (t : string) : TextEdit := mkTextEdit r t.

End vscode.

(** ** The analyzer *)

Import ts.

(** *** Object identity

    The analyzer compares syntax nodes with [===] and keys a [Map] by
    declaration objects.  A node object of a tree is identified by its path
    from the root: the index of the declaration among the children of the
    source file, and the slot the node occupies in that declaration. *)
Inductive Slot :=
| SlotClauseName                (* importClause.name *)
| SlotElement (index : nat)     (* importClause.namedBindings.elements[index] *)
| SlotNamespaceName.            (* importClause.namedBindings.name *)

Record NodeRef := mkNodeRef { ref_decl : nat; ref_slot : Slot }.

#[global] Instance Slot_eq_dec : EqDecision Slot.
Proof. solve_decision. Defined.

#[global] Instance NodeRef_eq_dec : EqDecision NodeRef.
Proof. solve_decision. Defined.

(** A declaration object: its identity (index) and its contents. *)
Definition DeclRef : Type := nat * ImportDeclaration.

(** [ts.isIdentifier(node)] on a collected node: the clause name and the
    namespace name are identifiers, an element is an import specifier. *)
Definition isIdentifier (node : NodeRef) : bool :=
  match ref_slot node with
  | SlotClauseName | SlotNamespaceName => true
  | SlotElement _ => false
  end.

(** [node.parent.name] for a collected node.  The parent of the clause name
    is the import clause, whose [name] is that very node; the parent of the
    namespace name is the namespace import, whose [name] is that very node;
    the parent of an element is the named-imports list, which has no
    [name]. *)
Definition parentName (node : NodeRef) : option NodeRef :=
  match ref_slot node with
  | SlotClauseName | SlotNamespaceName => Some node
  | SlotElement _ => None
  end.

Record ImportedSymbol := mkImportedSymbol {
  name : string;
  node : NodeRef;
  parent : DeclRef
}.

(** *** First pass: every identifier outside import declarations *)

Fixpoint visit (n : Node) (allIdentifiers : gset string) : gset string :=
  match n with
  | ImportDeclarationNode _ => allIdentifiers
  | IdentifierNode i => {[ id_text i ]} ∪ allIdentifiers
  | OtherNode _ _ children =>
      fold_left (λ acc child, visit child acc) children allIdentifiers
  end.

Definition allIdentifiers (sourceFile : SourceFile) : gset string :=
  fold_left (λ acc child, visit child acc) (forEachChild_SourceFile sourceFile) ∅.

(** *** Second pass: the imported symbols, in source order *)

Definition symbolsOfClause (index : nat) (declaration : ImportDeclaration)
    (clause : ImportClause) : list ImportedSymbol :=
  let this : DeclRef := (index, declaration) in
  match clause_name clause with
  | Some n => [mkImportedSymbol (id_text n) (mkNodeRef index SlotClauseName) this]
  | None => []
  end ++
  match clause_namedBindings clause with
  | Some (NamedImports _ elems) =>
      imap (λ i element,
              mkImportedSymbol (id_text (spec_name element))
                               (mkNodeRef index (SlotElement i)) this) elems
  | Some (NamespaceImport _ n) =>
      [mkImportedSymbol (id_text n) (mkNodeRef index SlotNamespaceName) this]
  | None => []
  end.

Definition symbolsOfChild (index : nat) (n : Node) : list ImportedSymbol :=
  match n with
  | ImportDeclarationNode declaration =>
      match importClause declaration with
      | Some clause => symbolsOfClause index declaration clause
      | None => []
      end
  | _ => []
  end.

Definition importedSymbols (sourceFile : SourceFile) : list ImportedSymbol :=
  mjoin (imap symbolsOfChild (forEachChild_SourceFile sourceFile)).

Definition unusedSymbols (sourceFile : SourceFile) : list ImportedSymbol :=
  List.filter (λ symbol, negb (bool_decide (name symbol ∈ allIdentifiers sourceFile)))
              (importedSymbols sourceFile).

(** *** Grouping by declaration

    A JavaScript [Map] iterates in insertion order, so it is an association
    list here; keys are compared by identity. *)
Definition DeclMap : Type := list (DeclRef * list NodeRef).

(** [if (!m.has(k)) m.set(k, []); m.get(k).push(node)] *)
Fixpoint pushUnused (m : DeclMap) (k : DeclRef) (n : NodeRef) : DeclMap :=
  match m with
  | [] => [(k, [n])]
  | (k', ns) :: m' =>
      if decide (fst k' = fst k) then (k', ns ++ [n]) :: m'
      else (k', ns) :: pushUnused m' k n
  end.

Definition unusedImportsByDeclaration (sourceFile : SourceFile) : DeclMap :=
  fold_left (λ m symbol, pushUnused m (parent symbol) (node symbol))
            (unusedSymbols sourceFile) [].

(** *** Strings *)

(** [String.prototype.trim] strips white space and line terminators. *)
Definition isTrimmed (c : ascii) : bool :=
  match nat_of_ascii c with
  | 9 | 10 | 11 | 12 | 13 | 32 | 160 => true
  | _ => false
  end.

Fixpoint trimStart (s : string) : string :=
  match s with
  | EmptyString => EmptyString
  | String c s' => if isTrimmed c then trimStart s' else s
  end.

Fixpoint trimEnd (s : string) : string :=
  match s with
  | EmptyString => EmptyString
  | String c s' =>
      match trimEnd s' with
      | EmptyString => if isTrimmed c then EmptyString else String c EmptyString
      | t => String c t
      end
  end.

Definition trim (s : string) : string := trimEnd (trimStart s).

(** A string in a condition is true unless it is empty; [undefined] is
    false. *)
Definition truthy (s : option string) : bool :=
  match s with
  | Some s => negb (String.eqb s "")
  | None => false
  end.

(** *** Ranges *)

Definition getRange (sourceFile : SourceFile) (r : TextRange) : vscode.Range :=
  let s := getLineAndCharacterOfPosition sourceFile (tr_start r) in
  let e := getLineAndCharacterOfPosition sourceFile (tr_end r) in
  vscode.newRange (ts.line s) (ts.character s) (ts.line e) (ts.character e).

(** The range of the lines a declaration occupies: from the start of its
    first line to the start of the line after its last line. *)
Definition deletionRange (sourceFile : SourceFile) (declaration : ImportDeclaration)
    : vscode.Range :=
  let r := getRange sourceFile (decl_range declaration) in
  vscode.newRange (vscode.line (vscode.start r)) 0 (vscode.line (vscode.end_ r) + 1) 0.

(** *** One iteration of the edit loop *)

Section createEdit.
Variable sourceFile : SourceFile.
Variable declaration : DeclRef.
Variable unusedNodes : list NodeRef.

Let clause : option ImportClause := importClause (snd declaration).
Let bindings : option NamedImportBindings := clause ≫= clause_namedBindings.

Definition isDefaultImportUnused : bool :=
  existsb (λ n, isIdentifier n &&
                match clause ≫= clause_name with
                | Some _ => bool_decide (mkNodeRef (fst declaration) SlotClauseName = n)
                | None => false
                end) unusedNodes.

(** The elements that are not among the unused nodes, each with its
    identity (its index in the list).  [undefined] ([None]) when the
    declaration has no named-imports list. *)
Definition usedSpecifiers : option (list (nat * ImportSpecifier)) :=
  match bindings with
  | Some (NamedImports _ elems) =>
      Some (List.filter
              (λ element : nat * ImportSpecifier,
                 negb (existsb
                         (λ unused,
                            bool_decide
                              (unused = mkNodeRef (fst declaration) (SlotElement (fst element))))
                         unusedNodes))
              (imap pair elems))
  | _ => None
  end.

Definition isNamespaceImport : bool :=
  match bindings with
  | Some (NamespaceImport _ _) => true
  | _ => false
  end.

Definition isNamespaceImportUsed : bool :=
  isNamespaceImport &&
  negb (existsb (λ n, isIdentifier n && bool_decide (parentName n = Some n)) unusedNodes).

Definition isDefaultImportUsed : bool :=
  match clause ≫= clause_name with
  | Some _ => negb isDefaultImportUnused
  | None => false
  end.

Definition defaultImportName : option string :=
  if isDefaultImportUsed
  then (λ n, getText sourceFile (id_range n)) <$> (clause ≫= clause_name)
  else None.

Definition hasUsedSpecifiers : bool :=
  match usedSpecifiers with
  | Some (_ :: _) => true
  | _ => false
  end.

Definition newImport : string :=
  "import "
  +:+ (if truthy defaultImportName
       then default "" defaultImportName +:+ (if hasUsedSpecifiers then ", " else "")
       else "")
  +:+ (if hasUsedSpecifiers
       then "{ " +:+ String.concat ", "
                       ((λ s, getText sourceFile (spec_range (snd s))) <$> default [] usedSpecifiers)
                 +:+ " }"
       else "")
  +:+ " from " +:+ getText sourceFile (moduleSpecifier (snd declaration)) +:+ ";".

Definition originalImport : string := getText sourceFile (decl_range (snd declaration)).

Definition createEdit : option vscode.TextEdit :=
  if isNamespaceImport && negb isNamespaceImportUsed then
    Some (vscode.TextEdit_delete (deletionRange sourceFile (snd declaration)))
  else if negb (truthy defaultImportName) && negb hasUsedSpecifiers then
    Some (vscode.TextEdit_delete (deletionRange sourceFile (snd declaration)))
  else if negb (String.eqb (trim newImport) (trim originalImport)) then
    Some (vscode.TextEdit_replace (getRange sourceFile (decl_range (snd declaration))) newImport)
  else None.
End createEdit.

(** *** The analysis of a parsed file

    [analyzeFile(sourceCode, fileName)] starts with
    [ts.createSourceFile(fileName, sourceCode, ts.ScriptTarget.Latest, true)];
    [sourceFile] is the tree that call returns, with parent links set. *)

Definition analyzeFile (sourceFile : SourceFile) : list vscode.TextEdit :=
  omap (λ entry : DeclRef * list NodeRef, createEdit sourceFile (fst entry) (snd entry))
       (unusedImportsByDeclaration sourceFile).

(** ** Notions the properties are stated with *)

(** [x] is the spelling of an identifier node of the subtree [n] that is not
    inside an import declaration. *)
Fixpoint spelledIn (x : string) (n : Node) : bool :=
  match n with
  | IdentifierNode i => String.eqb (id_text i) x
  | ImportDeclarationNode _ => false
  | OtherNode _ _ children => existsb (spelledIn x) children
  end.

Definition spelledOutsideImports (sourceFile : SourceFile) (x : string) : bool :=
  existsb (spelledIn x) (forEachChild_SourceFile sourceFile).

(** The kept list of the specification: the imported symbols that are not
    unused. *)
Definition keptSymbols (sourceFile : SourceFile) : list ImportedSymbol :=
  List.filter (λ symbol, bool_decide (name symbol ∈ allIdentifiers sourceFile))
              (importedSymbols sourceFile).

(** The unused nodes of the child at [index], in source order. *)
Definition unusedNodesOf (sourceFile : SourceFile) (index : nat) (n : Node) : list NodeRef :=
  node <$> List.filter
             (λ symbol, negb (bool_decide (name symbol ∈ allIdentifiers sourceFile)))
             (symbolsOfChild index n).

(** The map entry of the child at [index]: an import declaration with at
    least one unused node has one, no other child has. *)
Definition entryOfStatement (sourceFile : SourceFile) (child : nat * Node)
    : option (DeclRef * list NodeRef) :=
  match snd child with
  | ImportDeclarationNode declaration =>
      match unusedNodesOf sourceFile (fst child) (snd child) with
      | [] => None
      | unusedNodes => Some ((fst child, declaration), unusedNodes)
      end
  | _ => None
  end.

(** The edit that the child at [index] gives rise to, if any. *)
Definition editOfStatement (sourceFile : SourceFile) (child : nat * Node)
    : option vscode.TextEdit :=
  entryOfStatement sourceFile child ≫=
    (λ entry, createEdit sourceFile (fst entry) (snd entry)).

(** An edit of the declaration is built without the collected node [n]:
    the default name is not printed, the element is not among the used
    specifiers, and a namespace name goes with its whole declaration. *)
Definition omitted (sourceFile : SourceFile) (declaration : DeclRef)
    (unusedNodes : list NodeRef) (n : NodeRef) : Prop :=
  match ref_slot n with
  | SlotClauseName => defaultImportName sourceFile declaration unusedNodes = None
  | SlotElement i =>
      ∀ kept, usedSpecifiers declaration unusedNodes = Some kept → i ∉ kept.*1
  | SlotNamespaceName =>
      createEdit sourceFile declaration unusedNodes
      = Some (vscode.TextEdit_delete (deletionRange sourceFile (snd declaration)))
  end.

Definition isDeletion (e : vscode.TextEdit) : bool := String.eqb (vscode.newText e) "".

(** Two ranges do not overlap: one ends where or before the other starts. *)
Definition rangesDisjoint (a b : vscode.Range) : Prop :=
  vscode.isBeforeOrEqual (vscode.end_ a) (vscode.start b) = true ∨
  vscode.isBeforeOrEqual (vscode.end_ b) (vscode.start a) = true.

Definition lineOf (sourceFile : SourceFile) (position : nat) : nat :=
  ts.line (getLineAndCharacterOfPosition sourceFile position).

(** The children that give rise to an edit, each with its edit. *)
Definition editedStatements (sourceFile : SourceFile) : list (Node * vscode.TextEdit) :=
  omap (λ child : nat * Node, pair (snd child) <$> editOfStatement sourceFile child)
       (imap pair (forEachChild_SourceFile sourceFile)).

Fixpoint pairwise {A} (R : A → A → bool) (l : list A) : bool :=
  match l with
  | [] => true
  | x :: l' => forallb (R x) l' && pairwise R l'
  end.

(** The statement [a] ends on a line before the line [b] starts on. *)
Definition onEarlierLines (sourceFile : SourceFile) (a b : Node) : bool :=
  bool_decide (lineOf sourceFile (tr_end (node_range a))
               < lineOf sourceFile (tr_start (node_range b))).

(** No deleted statement shares a line with another edited statement. *)
Definition deletionsApart (sourceFile : SourceFile) : bool :=
  pairwise (λ a b : Node * vscode.TextEdit,
              implb (isDeletion (snd a) || isDeletion (snd b))
                    (onEarlierLines sourceFile (fst a) (fst b)))
           (editedStatements sourceFile).

(** A re-export ([export ... from]) or a side-effect import ([import './x']). *)
Definition isReExportOrSideEffectImport (n : Node) : bool :=
  match n with
  | ImportDeclarationNode d => bool_decide (importClause d = None)
  | OtherNode ExportDeclaration _ _ => true
  | _ => false
  end.

(** No deleted statement shares a line with the statement [s]. *)
Definition deletionsAvoid (sourceFile : SourceFile) (s : Node) : bool :=
  forallb (λ a : Node * vscode.TextEdit,
             implb (isDeletion (snd a))
                   (onEarlierLines sourceFile (fst a) s || onEarlierLines sourceFile s (fst a)))
          (editedStatements sourceFile).

(** The position of an offset, as the analyzer passes it to the range
    constructor. *)
Definition positionOf (sourceFile : SourceFile) (position : nat) : vscode.Position :=
  let p := getLineAndCharacterOfPosition sourceFile position in
  vscode.mkPosition (ts.line p) (ts.character p).

(** The test of the filter that selects the unused symbols, and one step of
    the grouping loop. *)
Definition unusedIn (sourceFile : SourceFile) (symbol : ImportedSymbol) : bool :=
  negb (bool_decide (name symbol ∈ allIdentifiers sourceFile)).

Definition pushSymbol (m : DeclMap) (symbol : ImportedSymbol) : DeclMap :=
  pushUnused m (parent symbol) (node symbol).

(** The slot of a collected node is filled in the clause it comes from. *)
Definition slotFilled (clause : ImportClause) (slot : Slot) : Prop :=
  match slot with
  | SlotClauseName => is_Some (clause_name clause)
  | SlotElement i =>
      ∃ r elems, clause_namedBindings clause = Some (NamedImports r elems) ∧
                 is_Some (elems !! i)
  | SlotNamespaceName =>
      ∃ r n, clause_namedBindings clause = Some (NamespaceImport r n)
  end.

(** The local name that the slot binds in the clause, if the slot is
    filled. *)
Definition nameInSlot (clause : ImportClause) (slot : Slot) : option string :=
  match slot with
  | SlotClauseName => id_text <$> clause_name clause
  | SlotElement i =>
      match clause_namedBindings clause with
      | Some (NamedImports _ elems) => (λ element, id_text (spec_name element)) <$> elems !! i
      | _ => None
      end
  | SlotNamespaceName =>
      match clause_namedBindings clause with
      | Some (NamespaceImport _ n) => Some (id_text n)
      | _ => None
      end
  end.

(** The range of whole lines, and a range inside one line. *)
Definition wholeLines (first next : nat) : vscode.Range :=
  vscode.mkRange (vscode.mkPosition first 0) (vscode.mkPosition next 0).

Definition onLine (l first next : nat) : vscode.Range :=
  vscode.mkRange (vscode.mkPosition l first) (vscode.mkPosition l next).

(** The declaration binds a namespace ([* as N]). *)
Definition hasNamespaceImport (declaration : ImportDeclaration) : bool :=
  match importClause declaration ≫= clause_namedBindings with
  | Some (NamespaceImport _ _) => true
  | _ => false
  end.

(** The default name, when it is kept, prints as a non-empty text. *)
Definition printsDefault (sourceFile : SourceFile) (declaration : ImportDeclaration) : bool :=
  match importClause declaration ≫= clause_name with
  | Some n => negb (String.eqb (getText sourceFile (id_range n)) "")
  | None => true
  end.

(** *** The rebuilt statement, in the words of the specification

    [import]; then the surviving default binding, followed by a comma only
    if named specifiers survive too; then the surviving specifiers between
    braces, separated by commas; then [from], the module specifier as it is
    written, and a semicolon. *)
Definition printImport (default : option string) (specifiers : list string)
    (module : string) : string :=
  "import "
  +:+ match default with
      | Some d => d +:+ match specifiers with [] => "" | _ :: _ => ", " end
      | None => ""
      end
  +:+ match specifiers with
      | [] => ""
      | _ :: _ => "{ " +:+ String.concat ", " specifiers +:+ " }"
      end
  +:+ " from " +:+ module +:+ ";".

(** The default binding that survives: the text of the default name, when
    the statement has one, it is not among the unused nodes and its text is
    not empty. *)
Definition survivingDefault (sourceFile : SourceFile) (declaration : DeclRef)
    (unusedNodes : list NodeRef) : option string :=
  match importClause (snd declaration) ≫= clause_name with
  | Some n =>
      if bool_decide (mkNodeRef (fst declaration) SlotClauseName ∈ unusedNodes) then None
      else if String.eqb (getText sourceFile (id_range n)) "" then None
      else Some (getText sourceFile (id_range n))
  | None => None
  end.

(** The specifiers that survive: the elements of the named-imports list that
    are not among the unused nodes, each with its index, in the order of the
    list. *)
Definition survivingSpecifiers (declaration : DeclRef) (unusedNodes : list NodeRef)
    : list (nat * ImportSpecifier) :=
  match importClause (snd declaration) ≫= clause_namedBindings with
  | Some (NamedImports _ elems) =>
      List.filter
        (λ element : nat * ImportSpecifier,
           bool_decide (mkNodeRef (fst declaration) (SlotElement (fst element)) ∉ unusedNodes))
        (imap pair elems)
  | _ => []
  end.

Definition rebuiltStatement (sourceFile : SourceFile) (declaration : DeclRef)
    (unusedNodes : list NodeRef) : string :=
  printImport (survivingDefault sourceFile declaration unusedNodes)
              ((λ s, getText sourceFile (spec_range (snd s)))
                 <$> survivingSpecifiers declaration unusedNodes)
              (getText sourceFile (moduleSpecifier (snd declaration))).

(** The statement goes as a whole: nothing of it survives, or it binds a
    namespace and one of its identifiers (the default name or the namespace
    name) is among the unused nodes. *)
Definition goesWhole (sourceFile : SourceFile) (declaration : DeclRef)
    (unusedNodes : list NodeRef) : bool :=
  hasNamespaceImport (snd declaration) && existsb isIdentifier unusedNodes
  || match survivingDefault sourceFile declaration unusedNodes,
           survivingSpecifiers declaration unusedNodes with
     | None, [] => true
     | _, _ => false
     end.

(** The edit made from a map entry: the deletion of the statement's lines
    when it goes as a whole; otherwise the replacement of the statement by
    the rebuilt statement, unless the two are equal once trimmed. *)
Definition editOfEntry (sourceFile : SourceFile) (declaration : DeclRef)
    (unusedNodes : list NodeRef) : option vscode.TextEdit :=
  if goesWhole sourceFile declaration unusedNodes then
    Some (vscode.TextEdit_delete (deletionRange sourceFile (snd declaration)))
  else if String.eqb (trim (rebuiltStatement sourceFile declaration unusedNodes))
                     (trim (getText sourceFile (decl_range (snd declaration)))) then None
  else Some (vscode.TextEdit_replace (getRange sourceFile (decl_range (snd declaration)))
                                     (rebuiltStatement sourceFile declaration unusedNodes)).

(** *** The content of a file, without its offsets

    What the analysis reads of a tree: the kinds of the nodes, the spelling
    of the identifiers, and the local names that the import declarations
    bind, slot by slot. *)
Inductive BindingsShape :=
| NamedShape (names : list string)
| NamespaceShape (name : string).

Inductive Shape :=
| IdentifierShape (text : string)
| ImportShape (clause : option (option string * option BindingsShape))
| OtherShape (kind : SyntaxKind) (children : list Shape).

Definition shapeOfBindings (b : NamedImportBindings) : BindingsShape :=
  match b with
  | NamedImports _ elems => NamedShape ((λ element, id_text (spec_name element)) <$> elems)
  | NamespaceImport _ n => NamespaceShape (id_text n)
  end.

Definition shapeOfClause (clause : ImportClause)
    : option string * option BindingsShape :=
  (id_text <$> clause_name clause, shapeOfBindings <$> clause_namedBindings clause).

Fixpoint shapeOf (n : Node) : Shape :=
  match n with
  | IdentifierNode i => IdentifierShape (id_text i)
  | ImportDeclarationNode d => ImportShape (shapeOfClause <$> importClause d)
  | OtherNode kind _ children => OtherShape kind (shapeOf <$> children)
  end.

Definition shapesOf (sourceFile : SourceFile) : list Shape :=
  shapeOf <$> forEachChild_SourceFile sourceFile.

Fixpoint spelledInShape (x : string) (s : Shape) : bool :=
  match s with
  | IdentifierShape t => String.eqb t x
  | ImportShape _ => false
  | OtherShape _ children => existsb (spelledInShape x) children
  end.

Definition namesOfShape (s : Shape) : list string :=
  match s with
  | ImportShape (Some (default, bindings)) =>
      option_list default ++
      match bindings with
      | Some (NamedShape names) => names
      | Some (NamespaceShape n) => [n]
      | None => []
      end
  | _ => []
  end.

(** The content of the text that the edit loop builds for a declaration
    (lines 103-114): the default name when it is printed, and the used
    specifiers, under their local names, as a named-imports list when that
    list is printed. *)
Definition rebuiltShape (sourceFile : SourceFile) (declaration : DeclRef)
    (unusedNodes : list NodeRef) : Shape :=
  ImportShape
    (Some (if truthy (defaultImportName sourceFile declaration unusedNodes)
           then id_text <$> (importClause (snd declaration) ≫= clause_name)
           else None,
           if hasUsedSpecifiers declaration unusedNodes
           then Some (NamedShape ((λ s, id_text (spec_name (snd s)))
                                    <$> default [] (usedSpecifiers declaration unusedNodes)))
           else None)).

(** What the edits leave of a child of the source file.  A child without a
    map entry stays as it is.  A declaration whose edit is a deletion
    leaves nothing; a declaration whose edit is a replacement leaves the
    statement that the replacement prints; and a declaration with a map
    entry and without an edit is that statement already, up to the white
    space at its ends (the comparison of line 117). *)
Definition rewrittenShape (sourceFile : SourceFile) (child : nat * Node) : option Shape :=
  match entryOfStatement sourceFile child with
  | None => Some (shapeOf (snd child))
  | Some (declaration, unusedNodes) =>
      match createEdit sourceFile declaration unusedNodes with
      | Some e =>
          if isDeletion e then None
          else Some (rebuiltShape sourceFile declaration unusedNodes)
      | None => Some (rebuiltShape sourceFile declaration unusedNodes)
      end
  end.

(** The content of the file that the edits describe: the statements in
    their order, without the deleted declarations, with the rebuilt
    declarations in the place of the replaced ones, and nothing else
    changed. *)
Definition rewrittenShapes (sourceFile : SourceFile) : list Shape :=
  omap (rewrittenShape sourceFile) (imap pair (forEachChild_SourceFile sourceFile)).

(** *** Trees that fit their text *)

(** The ranges follow one another between [lo] and [hi]. *)
Fixpoint rangesOrdered (lo hi : nat) (rs : list TextRange) : bool :=
  match rs with
  | [] => bool_decide (lo ≤ hi)
  | r :: rs' =>
      bool_decide (lo ≤ tr_start r ∧ tr_start r ≤ tr_end r) && rangesOrdered (tr_end r) hi rs'
  end.

(** The children of the source file follow one another in the text. *)
Definition statementsOrdered (sourceFile : SourceFile) : bool :=
  rangesOrdered 0 (String.length (text sourceFile))
                (node_range <$> forEachChild_SourceFile sourceFile).

Definition spelled (sourceFile : SourceFile) (i : Identifier) : bool :=
  String.eqb (getText sourceFile (id_range i)) (id_text i).

Definition specifierMatchesText (sourceFile : SourceFile) (s : ImportSpecifier) : bool :=
  spelled sourceFile (spec_name s) &&
  from_option (spelled sourceFile) true (spec_propertyName s) &&
  rangesOrdered (tr_start (spec_range s)) (tr_end (spec_range s))
    (from_option (λ i, [id_range i]) [] (spec_propertyName s) ++ [id_range (spec_name s)]).

Definition bindingsMatchText (sourceFile : SourceFile) (b : NamedImportBindings) : bool :=
  match b with
  | NamedImports r elems =>
      String.prefix "{" (getText sourceFile r) &&
      rangesOrdered (tr_start r + 1) (tr_end r - 1) (spec_range <$> elems) &&
      forallb (specifierMatchesText sourceFile) elems
  | NamespaceImport r n =>
      String.prefix "*" (getText sourceFile r) &&
      rangesOrdered (tr_start r + 1) (tr_end r) [id_range n] &&
      spelled sourceFile n
  end.

Definition bindingsRange (b : NamedImportBindings) : TextRange :=
  match b with
  | NamedImports r _ | NamespaceImport r _ => r
  end.

Definition declarationMatchesText (sourceFile : SourceFile) (d : ImportDeclaration) : bool :=
  String.prefix "import" (getText sourceFile (decl_range d)) &&
  match importClause d with
  | Some c =>
      from_option (spelled sourceFile) true (clause_name c) &&
      from_option (bindingsMatchText sourceFile) true (clause_namedBindings c) &&
      rangesOrdered (tr_start (decl_range d) + 6) (tr_end (decl_range d))
        (from_option (λ i, [id_range i]) [] (clause_name c)
         ++ from_option (λ b, [bindingsRange b]) [] (clause_namedBindings c)
         ++ [moduleSpecifier d])
  | None =>
      rangesOrdered (tr_start (decl_range d) + 6) (tr_end (decl_range d)) [moduleSpecifier d]
  end.

Fixpoint nodeMatchesText (sourceFile : SourceFile) (n : Node) : bool :=
  match n with
  | IdentifierNode i => spelled sourceFile i
  | ImportDeclarationNode d => declarationMatchesText sourceFile d
  | OtherNode _ r children =>
      rangesOrdered (tr_start r) (tr_end r) (node_range <$> children) &&
      forallb (nodeMatchesText sourceFile) children
  end.

(** The tree fits the text: ranges nest and follow one another, every
    identifier node spans its spelling, every import declaration starts with
    the keyword and lists its parts in order. *)
Definition treeMatchesText (sourceFile : SourceFile) : bool :=
  statementsOrdered sourceFile &&
  forallb (nodeMatchesText sourceFile) (statements sourceFile).

(** ** The host document *)

Module Host.

(** The host applies a batch of edits to a document
    ([vscode.workspace.applyEdit], called by [processFile]); this is the
    editor's work, not the analyzer's.  Every edit addresses the text as it
    was before the batch, and a batch with overlapping ranges is refused as
    a whole. *)
Record OffsetEdit := mkOffsetEdit { oe_start : nat; oe_end : nat; oe_text : string }.

(** A position past the last line or past the end of the text denotes the
    end of the text. *)
Definition offsetAt (t : string) (p : vscode.Position) : nat :=
  match computeLineStarts t !! vscode.line p with
  | Some s => Nat.min (s + vscode.character p) (String.length t)
  | None => String.length t
  end.

Definition toOffsets (t : string) (e : vscode.TextEdit) : OffsetEdit :=
  mkOffsetEdit (offsetAt t (vscode.start (vscode.range e)))
               (offsetAt t (vscode.end_ (vscode.range e)))
               (vscode.newText e).

Fixpoint insertByStart (e : OffsetEdit) (l : list OffsetEdit) : list OffsetEdit :=
  match l with
  | [] => [e]
  | x :: l' => if decide (oe_start e ≤ oe_start x) then e :: l else x :: insertByStart e l'
  end.

Definition sortByStart (l : list OffsetEdit) : list OffsetEdit := foldr insertByStart [] l.

Fixpoint disjointSorted (l : list OffsetEdit) : bool :=
  match l with
  | a :: l' =>
      match l' with
      | b :: _ => bool_decide (oe_end a ≤ oe_start b) && disjointSorted l'
      | [] => true
      end
  | [] => true
  end.

Definition splice (t : string) (s e : nat) (new : string) : string :=
  String.substring 0 s t +:+ new +:+ String.substring e (String.length t - e) t.

(** The later edits are applied first, so that the offsets of the earlier
    ones still address the original text. *)
Fixpoint applySorted (t : string) (l : list OffsetEdit) : string :=
  match l with
  | [] => t
  | e :: l' => splice (applySorted t l') (oe_start e) (oe_end e) (oe_text e)
  end.

Definition applyEdits (t : string) (edits : list vscode.TextEdit) : option string :=
  let l := sortByStart (toOffsets t <$> edits) in
  if disjointSorted l then Some (applySorted t l) else None.

End Host.

(** ** Source files used below

    Each tree is the one the parser returns for its text; offsets count
    characters from 0. *)

Module Inputs.

Definition nl : string := String LF EmptyString.

Definition rng (s e : nat) : TextRange := mkTextRange s e.
Definition ident (s e : nat) (t : string) : Identifier := mkIdentifier (rng s e) t.
Definition identNode (s e : nat) (t : string) : Node := IdentifierNode (ident s e t).
(** A specifier without alias and without [type]: [name]. *)
Definition plainSpecifier (s e : nat) (t : string) : ImportSpecifier :=
  mkImportSpecifier (rng s e) false None (ident s e t).
Definition namedImportsClause (typeOnly : bool) (default : option Identifier)
    (s e : nat) (elems : list ImportSpecifier) : option ImportClause :=
  Some (mkImportClause typeOnly default (Some (NamedImports (rng s e) elems))).
Definition importNode (s e : nat) (clause : option ImportClause) (ms me : nat) : Node :=
  ImportDeclarationNode (mkImportDeclaration (rng s e) clause (rng ms me)).
Definition other (k : SyntaxKind) (s e : nat) (children : list Node) : Node :=
  OtherNode k (rng s e) children.

(** [import D, * as N from './m';] on the first line. *)
Definition importDefaultAndNamespace : Node :=
  importNode 0 28
    (Some (mkImportClause false (Some (ident 7 8 "D"))
             (Some (NamespaceImport (rng 10 16) (ident 15 16 "N")))))
    22 27.

(** The default binding is used, the namespace binding is not. *)
Definition usedDefault : SourceFile :=
  mkSourceFile ("import D, * as N from './m';" +:+ nl +:+ "D();")
    [ importDefaultAndNamespace;
      other ExpressionStatement 29 33
        [other CallExpression 29 32 [identNode 29 30 "D"]] ]
    (rng 33 33) [].

(** The namespace binding is used, the default binding is not. *)
Definition usedNamespace : SourceFile :=
  mkSourceFile ("import D, * as N from './m';" +:+ nl +:+ "N.f();")
    [ importDefaultAndNamespace;
      other ExpressionStatement 29 35
        [other CallExpression 29 34
           [other PropertyAccessExpression 29 32
              [identNode 29 30 "N"; identNode 31 32 "f"]] ] ]
    (rng 35 35) [].

(** The namespace name is spelled only by a parameter declaration. *)
Definition declaredNamespaceName : SourceFile :=
  mkSourceFile ("import D, * as N from './m';" +:+ nl +:+ "function f(N) {}")
    [ importDefaultAndNamespace;
      other FunctionDeclaration 29 45
        [ identNode 38 39 "f";
          other ParameterNode 40 41 [identNode 40 41 "N"];
          other Block 43 45 [] ] ]
    (rng 45 45) [].

(** A plain property key. *)
Definition plainKey : SourceFile :=
  mkSourceFile ("import { Name } from './m';" +:+ nl +:+ "const o = { Name: 1 };")
    [ importNode 0 27 (namedImportsClause false None 7 15 [plainSpecifier 9 13 "Name"]) 21 26;
      other VariableStatement 28 50
        [other VariableDeclarationList 28 49
           [other VariableDeclaration 34 49
              [ identNode 34 35 "o";
                other ObjectLiteralExpression 38 49
                  [other PropertyAssignment 40 47
                     [identNode 40 44 "Name"; other NumericLiteral 46 47 []]] ]]] ]
    (rng 50 50) [].

(** A type-only import with one used and one unused name. *)
Definition typeOnly : SourceFile :=
  mkSourceFile ("import type { Used, Unused } from './t';" +:+ nl +:+ "let x: Used;")
    [ importNode 0 40
        (namedImportsClause true None 12 28
           [plainSpecifier 14 18 "Used"; plainSpecifier 20 26 "Unused"]) 34 39;
      other VariableStatement 41 53
        [other VariableDeclarationList 41 52
           [other VariableDeclaration 45 52
              [ identNode 45 46 "x";
                other TypeReference 48 52 [identNode 48 52 "Used"] ]]] ]
    (rng 53 53) [].

(** Two import declarations on one line. *)
Definition sharedLine : SourceFile :=
  mkSourceFile ("import { a } from 'x'; import { b, c } from 'y';" +:+ nl +:+ "c();")
    [ importNode 0 22 (namedImportsClause false None 7 12 [plainSpecifier 9 10 "a"]) 18 21;
      importNode 23 48
        (namedImportsClause false None 30 38
           [plainSpecifier 32 33 "b"; plainSpecifier 35 36 "c"]) 44 47;
      other ExpressionStatement 49 53
        [other CallExpression 49 52 [identNode 49 50 "c"]] ]
    (rng 53 53) [].

(** An unused import followed, on its line, by the only use of [b]. *)
Definition trailingCall : SourceFile :=
  mkSourceFile ("import { a } from 'x'; b();" +:+ nl +:+ "import { b } from 'y';")
    [ importNode 0 22 (namedImportsClause false None 7 12 [plainSpecifier 9 10 "a"]) 18 21;
      other ExpressionStatement 23 27
        [other CallExpression 23 26 [identNode 23 24 "b"]];
      importNode 28 50 (namedImportsClause false None 35 40 [plainSpecifier 37 38 "b"]) 46 49 ]
    (rng 50 50) [].

(** What is left of [trailingCall] without its first line. *)
Definition trailingCallRewritten : SourceFile :=
  mkSourceFile "import { b } from 'y';"
    [ importNode 0 22 (namedImportsClause false None 7 12 [plainSpecifier 9 10 "b"]) 18 21 ]
    (rng 22 22) [].

(** The name [a] occurs, outside its import, only in a re-export. *)
Definition reExported : SourceFile :=
  mkSourceFile ("import { a } from './x';" +:+ nl +:+ "export { a } from './m';")
    [ importNode 0 24 (namedImportsClause false None 7 12 [plainSpecifier 9 10 "a"]) 18 23;
      other ExportDeclaration 25 49
        [ other NamedExports 32 37 [other ExportSpecifier 34 35 [identNode 34 35 "a"]];
          other StringLiteral 43 48 [] ] ]
    (rng 49 49) [].

(** A stray closing brace: the parser reports "Declaration or statement
    expected" (1128) at offset 25 and skips the token. *)
Definition strayBrace : SourceFile :=
  mkSourceFile ("import { a } from './m';" +:+ nl +:+ "}")
    [ importNode 0 24 (namedImportsClause false None 7 12 [plainSpecifier 9 10 "a"]) 18 23 ]
    (rng 26 26) [mkDiagnostic 25 1128].

(** A side-effect import and a re-export, each after an unused import on the
    same line. *)
Definition besideUnused : SourceFile :=
  mkSourceFile ("import { a } from 'x'; import './side';" +:+ nl
                +:+ "export { b } from './m'; import { c } from 'y';" +:+ nl)
    [ importNode 0 22 (namedImportsClause false None 7 12 [plainSpecifier 9 10 "a"]) 18 21;
      importNode 23 39 None 30 38;
      other ExportDeclaration 40 64
        [ other NamedExports 47 52 [other ExportSpecifier 49 50 [identNode 49 50 "b"]];
          other StringLiteral 58 63 [] ];
      importNode 65 87 (namedImportsClause false None 72 77 [plainSpecifier 74 75 "c"]) 83 86 ]
    (rng 88 88) [].

(** Scenario 1 of the specification. *)
Definition scenario1 : SourceFile :=
  mkSourceFile ("import { a, b } from './m';" +:+ nl +:+ "console.log(b);")
    [ importNode 0 27
        (namedImportsClause false None 7 15 [plainSpecifier 9 10 "a"; plainSpecifier 12 13 "b"])
        21 26;
      other ExpressionStatement 28 43
        [other CallExpression 28 42
           [ other PropertyAccessExpression 28 39
               [identNode 28 35 "console"; identNode 36 39 "log"];
             identNode 40 41 "b" ]] ]
    (rng 43 43) [].

(** Scenario 3 of the specification. *)
Definition scenario3 : SourceFile :=
  mkSourceFile ("import Def, { a, b } from './m';" +:+ nl +:+ "console.log(a);")
    [ importNode 0 32
        (namedImportsClause false (Some (ident 7 10 "Def")) 12 20
           [plainSpecifier 14 15 "a"; plainSpecifier 17 18 "b"])
        26 31;
      other ExpressionStatement 33 48
        [other CallExpression 33 47
           [ other PropertyAccessExpression 33 44
               [identNode 33 40 "console"; identNode 41 44 "log"];
             identNode 45 46 "a" ]] ]
    (rng 48 48) [].

(** The name [a] occurs, outside its import, only in another import. *)
Definition otherImport : SourceFile :=
  mkSourceFile ("import { a } from './x';" +:+ nl +:+ "import { a as b } from './y';"
                +:+ nl +:+ "b();")
    [ importNode 0 24 (namedImportsClause false None 7 12 [plainSpecifier 9 10 "a"]) 18 23;
      importNode 25 54
        (namedImportsClause false None 32 42
           [mkImportSpecifier (rng 34 40) false (Some (ident 34 35 "a")) (ident 39 40 "b")])
        48 53;
      other ExpressionStatement 55 59
        [other CallExpression 55 58 [identNode 55 56 "b"]] ]
    (rng 59 59) [].

(** A side-effect import and a re-export on lines of their own, around an
    unused import. *)
Definition onOwnLines : SourceFile :=
  mkSourceFile ("import './side';" +:+ nl +:+ "import { a } from 'x';" +:+ nl
                +:+ "export { b } from './m';")
    [ importNode 0 16 None 7 15;
      importNode 17 39 (namedImportsClause false None 24 29 [plainSpecifier 26 27 "a"]) 35 38;
      other ExportDeclaration 40 64
        [ other NamedExports 47 52 [other ExportSpecifier 49 50 [identNode 49 50 "b"]];
          other StringLiteral 58 63 [] ] ]
    (rng 64 64) [].

(** The text of [scenario1] after its edit. *)
Definition scenario1Rewritten : SourceFile :=
  mkSourceFile ("import { b } from './m';" +:+ nl +:+ "console.log(b);")
    [ importNode 0 24 (namedImportsClause false None 7 12 [plainSpecifier 9 10 "b"]) 18 23;
      other ExpressionStatement 25 40
        [other CallExpression 25 39
           [ other PropertyAccessExpression 25 36
               [identNode 25 32 "console"; identNode 33 36 "log"];
             identNode 37 38 "b" ]] ]
    (rng 40 40) [].

(** A multi-line import, the test "Should handle multi-line imports". *)
Definition multiLineImport : Node :=
  importNode 0 31
    (namedImportsClause false None 7 19 [plainSpecifier 11 12 "a"; plainSpecifier 16 17 "b"])
    25 30.

Definition multiLineUsed : SourceFile :=
  mkSourceFile ("import {" +:+ nl +:+ "  a," +:+ nl +:+ "  b" +:+ nl +:+ "} from './m';"
                +:+ nl +:+ "console.log(b);")
    [ multiLineImport;
      other ExpressionStatement 32 47
        [other CallExpression 32 46
           [ other PropertyAccessExpression 32 43
               [identNode 32 39 "console"; identNode 40 43 "log"];
             identNode 44 45 "b" ]] ]
    (rng 47 47) [].

Definition multiLineUnused : SourceFile :=
  mkSourceFile ("import {" +:+ nl +:+ "  a," +:+ nl +:+ "  b" +:+ nl +:+ "} from './m';"
                +:+ nl +:+ "console.log('x');")
    [ multiLineImport;
      other ExpressionStatement 32 49
        [other CallExpression 32 48
           [ other PropertyAccessExpression 32 43
               [identNode 32 39 "console"; identNode 40 43 "log"];
             other StringLiteral 44 47 [] ]] ]
    (rng 49 49) [].

(** Scenario 5 of the specification: a shorthand property. *)
Definition shorthand : SourceFile :=
  mkSourceFile ("import { Name } from './m';" +:+ nl +:+ "const o = { Name };")
    [ importNode 0 27 (namedImportsClause false None 7 15 [plainSpecifier 9 13 "Name"]) 21 26;
      other VariableStatement 28 47
        [other VariableDeclarationList 28 46
           [other VariableDeclaration 34 46
              [ identNode 34 35 "o";
                other ObjectLiteralExpression 38 46
                  [other ShorthandPropertyAssignment 40 44 [identNode 40 44 "Name"]] ]]] ]
    (rng 47 47) [].

(** The re-export of [onOwnLines]. *)
Definition reExportOnOwnLine : Node :=
  other ExportDeclaration 40 64
    [ other NamedExports 47 52
        [other ExportSpecifier 49 50 [identNode 49 50 "b"]];
      other StringLiteral 58 63 [] ].

(** The first import of [otherImport] and its only symbol. *)
Definition importOfA : ImportDeclaration :=
  mkImportDeclaration (mkTextRange 0 24)
    (namedImportsClause false None 7 12 [plainSpecifier 9 10 "a"])
    (mkTextRange 18 23).

Definition symbolA : ImportedSymbol :=
  mkImportedSymbol "a" (mkNodeRef 0 (SlotElement 0)) (0, importOfA).

End Inputs.


(** ** The commands of the extension ([extension.ts])

    The two commands read the active editor or the files of the workspace,
    call [processFile] on a document and show a message.  The parser and the
    host's [applyEdit] are libraries: [createSourceFile] is
    [ts.createSourceFile], and [applyEdit document edits] is the document
    after [vscode.workspace.applyEdit], or [None] when that call throws. *)

Module Extension.

Record TextDocument := mkTextDocument {
  fileName : string;
  languageId : string;
  getText : string
}.

(** [s.split(separator)] for a separator of one character: the pieces
    between the separators; there is always at least one piece. *)
Fixpoint split (separator : ascii) (s : string) : list string :=
  match s with
  | EmptyString => [EmptyString]
  | String c s' =>
      if Ascii.eqb c separator then EmptyString :: split separator s'
      else match split separator s' with
           | piece :: pieces => String c piece :: pieces
           | [] => [String c EmptyString]
           end
  end.

Definition backslash : ascii := "092"%char.

(** [fileName.split('\\').pop()], the name shown in the messages. *)
Definition shownName (fileName : string) : string :=
  default EmptyString (last (split backslash fileName)).

Fixpoint hasChar (c : ascii) (s : string) : bool :=
  match s with
  | EmptyString => false
  | String c' s' => Ascii.eqb c' c || hasChar c s'
  end.

(** [`{${excludePatterns.join(',')}}`], where a missing setting counts as
    the empty list. *)
Definition excludeGlob (exclude : option (list string)) : string :=
  "{" +:+ String.concat "," (default [] exclude) +:+ "}".

Section Commands.
Variable createSourceFile : string → string → SourceFile.
Variable applyEdit : TextDocument → list vscode.TextEdit → option TextDocument.
Variable isCancellationRequested : nat → bool.
Variable openTextDocument : string → option TextDocument.

(** The result is the document after the call and the value returned, or
    [None] when the call throws. *)
Definition processFile (document : TextDocument) : option (TextDocument * bool) :=
  let edits := analyzeFile (createSourceFile (fileName document) (getText document)) in
  if decide (0 < length edits) then
    after ← applyEdit document edits; Some (after, true)
  else Some (document, false).

Inductive Message :=
| InformationMessage (message : string)
| ErrorMessage.

(** The command on the active editor: the document of the editor after the
    command, and the message shown. *)
Definition cleanCurrentFile (activeTextEditor : option TextDocument)
    : option TextDocument * Message :=
  match activeTextEditor with
  | None => (None, InformationMessage "No active editor found.")
  | Some document =>
      if negb (String.eqb (languageId document) "typescript")
         && negb (String.eqb (languageId document) "javascript")
      then (Some document,
            InformationMessage "This command only works on JavaScript and TypeScript files.")
      else match processFile document with
           | Some (after, _) =>
               (Some after,
                InformationMessage
                  ("Unused imports removed from " +:+ shownName (fileName document)))
           | None => (Some document, ErrorMessage)
           end
  end.

(** The state of the sweep over the files of the project: the documents
    opened so far, as they are after their processing, and the two
    counters. *)
Record Sweep := mkSweep {
  documents : list TextDocument;
  processedCount : nat;
  errorCount : nat
}.

(** How the loop ends: it reaches the end of the files or a cancellation
    ([Finished]: the final message follows), or [openTextDocument], which is
    awaited outside the [try], throws ([Thrown]: the exception leaves the
    loop and the command). *)
Inductive Ending := Finished | Thrown.

(** The loop of the project command, from its iteration [i] on.  A file is
    the path that [findFiles] returned; [openTextDocument file] is the
    document the host opens for it, or [None] when the call throws;
    [isCancellationRequested i] is the state of the token when iteration
    [i] starts.  An exception of [processFile] is caught and counted. *)
Fixpoint sweepFrom (i : nat) (files : list string) (acc : Sweep) : Sweep * Ending :=
  match files with
  | [] => (acc, Finished)
  | file :: rest =>
      if isCancellationRequested i then (acc, Finished)
      else
        match openTextDocument file with
        | None => (acc, Thrown)
        | Some document =>
            match processFile document with
            | Some (after, changed) =>
                sweepFrom (S i) rest
                  (mkSweep (documents acc ++ [after])
                           (if changed then S (processedCount acc) else processedCount acc)
                           (errorCount acc))
            | None =>
                sweepFrom (S i) rest
                  (mkSweep (documents acc ++ [document]) (processedCount acc)
                           (S (errorCount acc)))
            end
        end
  end.

(** The project command on the files that [findFiles] returned: [None]
    when there is none (a message is shown and nothing is counted). *)
Definition cleanProject (files : list string) : option (Sweep * Ending) :=
  match files with
  | [] => None
  | _ => Some (sweepFrom 0 files (mkSweep [] 0 0))
  end.

(** What the sweep does to one document it has opened. *)
Definition afterProcessing (document : TextDocument) : TextDocument :=
  match processFile document with
  | Some (after, _) => after
  | None => document
  end.

Definition reportsChange (document : TextDocument) : bool :=
  match processFile document with
  | Some (_, changed) => changed
  | None => false
  end.

Definition raises (document : TextDocument) : bool :=
  match processFile document with
  | Some _ => false
  | None => true
  end.

End Commands.

(** The host of the examples applies the batch as [Host.applyEdits] does and
    leaves the document as it is when the batch is refused; it never
    throws. *)
Definition hostApplyEdit (document : TextDocument) (edits : list vscode.TextEdit)
    : option TextDocument :=
  match Host.applyEdits (getText document) edits with
  | Some t => Some (mkTextDocument (fileName document) (languageId document) t)
  | None => Some document
  end.

End Extension.

(** ** Further values the properties are shown on *)

Module Cases.

(** The declaration of [Inputs.multiLineImport]. *)
Definition multiLineDeclaration : ImportDeclaration :=
  mkImportDeclaration (mkTextRange 0 31)
    (Inputs.namedImportsClause false None 7 19
       [Inputs.plainSpecifier 11 12 "a"; Inputs.plainSpecifier 16 17 "b"])
    (mkTextRange 25 30).

(** The declaration of [Inputs.scenario3], its symbol [a], and the unused
    nodes of the declaration: the default name and the element [b]. *)
Definition scenario3Declaration : ImportDeclaration :=
  mkImportDeclaration (mkTextRange 0 32)
    (Inputs.namedImportsClause false (Some (Inputs.ident 7 10 "Def")) 12 20
       [Inputs.plainSpecifier 14 15 "a"; Inputs.plainSpecifier 17 18 "b"])
    (mkTextRange 26 31).

Definition scenario3SymbolA : ImportedSymbol :=
  mkImportedSymbol "a" (mkNodeRef 0 (SlotElement 0)) (0, scenario3Declaration).

Definition scenario3Unused : list NodeRef :=
  [mkNodeRef 0 SlotClauseName; mkNodeRef 0 (SlotElement 1)].

(** The parser on the texts of the documents below: the trees given above
    for their texts, and a tree without statements for any other text. *)
Definition createSourceFile (fileName sourceCode : string) : SourceFile :=
  if String.eqb sourceCode (text Inputs.scenario1) then Inputs.scenario1
  else if String.eqb sourceCode (text Inputs.shorthand) then Inputs.shorthand
  else if String.eqb sourceCode (text Inputs.sharedLine) then Inputs.sharedLine
  else if String.eqb sourceCode (text Inputs.multiLineUnused) then Inputs.multiLineUnused
  else mkSourceFile sourceCode []
         (mkTextRange (String.length sourceCode) (String.length sourceCode)) [].

(** The parser on the text of [Inputs.scenario1] and on the text its edit
    leaves. *)
Definition reparse (fileName sourceCode : string) : SourceFile :=
  if String.eqb sourceCode (text Inputs.scenario1) then Inputs.scenario1
  else if String.eqb sourceCode (text Inputs.scenario1Rewritten)
       then Inputs.scenario1Rewritten
  else mkSourceFile sourceCode []
         (mkTextRange (String.length sourceCode) (String.length sourceCode)) [].

Definition documentOf (fileName : string) (sourceFile : SourceFile)
    : Extension.TextDocument :=
  Extension.mkTextDocument fileName "typescript" (text sourceFile).

(** The token of a sweep that is cancelled while its first file is being
    processed, and the token of a sweep that is never cancelled. *)
Definition cancelledAfterFirst (i : nat) : bool := bool_decide (1 ≤ i).

Definition neverCancelled (i : nat) : bool := false.

(** A workspace with the files [a.ts] and [c.ts]; the file [b.ts] was
    listed by [findFiles] and cannot be opened any more. *)
Definition openTextDocument (file : string) : option Extension.TextDocument :=
  if String.eqb file "a.ts" then Some (documentOf "a.ts" Inputs.scenario1)
  else if String.eqb file "c.ts" then Some (documentOf "c.ts" Inputs.multiLineUnused)
  else None.

End Cases.

(** ** The analysis on inputs of the repository's tests

    On these inputs the analysis returns the edits that the tests of the
    extension expect. *)

Lemma scenario1_edits :
  treeMatchesText Inputs.scenario1 = true ∧
  analyzeFile Inputs.scenario1
  = [vscode.TextEdit_replace (onLine 0 0 27) "import { b } from './m';"] ∧
  Host.applyEdits (text Inputs.scenario1) (analyzeFile Inputs.scenario1)
  = Some ("import { b } from './m';" +:+ Inputs.nl +:+ "console.log(b);").
Proof. repeat split; vm_compute; reflexivity. Qed.

Lemma scenario3_edits :
  treeMatchesText Inputs.scenario3 = true ∧
  analyzeFile Inputs.scenario3
  = [vscode.TextEdit_replace (onLine 0 0 32) "import { a } from './m';"] ∧
  Host.applyEdits (text Inputs.scenario3) (analyzeFile Inputs.scenario3)
  = Some ("import { a } from './m';" +:+ Inputs.nl +:+ "console.log(a);").
Proof. repeat split; vm_compute; reflexivity. Qed.

Lemma multiLineUsed_edits :
  treeMatchesText Inputs.multiLineUsed = true ∧
  analyzeFile Inputs.multiLineUsed
  = [vscode.TextEdit_replace
       (vscode.mkRange (vscode.mkPosition 0 0) (vscode.mkPosition 3 13))
       "import { b } from './m';"] ∧
  Host.applyEdits (text Inputs.multiLineUsed) (analyzeFile Inputs.multiLineUsed)
  = Some ("import { b } from './m';" +:+ Inputs.nl +:+ "console.log(b);").
Proof. repeat split; vm_compute; reflexivity. Qed.

Lemma multiLineUnused_edits :
  treeMatchesText Inputs.multiLineUnused = true ∧
  analyzeFile Inputs.multiLineUnused = [vscode.TextEdit_delete (wholeLines 0 4)] ∧
  Host.applyEdits (text Inputs.multiLineUnused) (analyzeFile Inputs.multiLineUnused)
  = Some "console.log('x');".
Proof. repeat split; vm_compute; reflexivity. Qed.

Lemma shorthand_edits :
  treeMatchesText Inputs.shorthand = true ∧ analyzeFile Inputs.shorthand = [].
Proof. repeat split; vm_compute; reflexivity. Qed.

(** ** The line map is monotone *)

Lemma lineAndStart_line_ge lineStarts position acc :
  fst acc ≤ fst (lineAndStart lineStarts position acc).
Proof.
  revert acc. induction lineStarts as [|s rest IH]; intros acc; simpl; [lia|].
  case_decide; [|lia]. specialize (IH (S (fst acc), s)). simpl in IH. lia.
Qed.

Lemma lineAndStart_mono lineStarts p q acc :
  p ≤ q →
  fst (lineAndStart lineStarts p acc) ≤ fst (lineAndStart lineStarts q acc) ∧
  (fst (lineAndStart lineStarts p acc) = fst (lineAndStart lineStarts q acc) →
   snd (lineAndStart lineStarts p acc) = snd (lineAndStart lineStarts q acc)).
Proof.
  intros Hpq. revert acc. induction lineStarts as [|s rest IH]; intros acc; simpl.
  - split; [lia|done].
  - destruct (decide (s ≤ p)) as [Hp|Hp].
    + rewrite decide_True by lia. apply IH.
    + destruct (decide (s ≤ q)) as [Hq|Hq]; [|split; [lia|done]].
      pose proof (lineAndStart_line_ge rest q (S (fst acc), s)) as Hge. simpl in Hge.
      split; lia.
Qed.

Lemma lineOf_mono sourceFile p q : p ≤ q → lineOf sourceFile p ≤ lineOf sourceFile q.
Proof.
  intros Hpq. unfold lineOf, getLineAndCharacterOfPosition.
  destruct (computeLineStarts (text sourceFile)) as [|s0 rest]; simpl; [lia|].
  pose proof (lineAndStart_mono rest p q (0, s0) Hpq) as [Hle _].
  destruct (lineAndStart rest p (0, s0)), (lineAndStart rest q (0, s0)). simpl in *. lia.
Qed.

Lemma positionOf_line sourceFile p :
  vscode.line (positionOf sourceFile p) = lineOf sourceFile p.
Proof. reflexivity. Qed.

Lemma positionOf_mono sourceFile p q :
  p ≤ q →
  vscode.isBeforeOrEqual (positionOf sourceFile p) (positionOf sourceFile q) = true.
Proof.
  intros Hpq. unfold vscode.isBeforeOrEqual, positionOf, getLineAndCharacterOfPosition.
  destruct (computeLineStarts (text sourceFile)) as [|s0 rest]; simpl.
  - rewrite bool_decide_eq_true_2 by done. repeat case_decide; done || lia.
  - pose proof (lineAndStart_mono rest p q (0, s0) Hpq) as [Hle Heq].
    destruct (lineAndStart rest p (0, s0)) as [l1 s1], (lineAndStart rest q (0, s0)) as [l2 s2].
    simpl in *. repeat case_decide; try done; try lia;
      apply bool_decide_eq_true_2; assert (s1 = s2) by (apply Heq; lia); lia.
Qed.

(** ** Ranges of well-ordered nodes *)

Lemma isBeforeOrEqual_lines a b :
  vscode.line a < vscode.line b → vscode.isBeforeOrEqual a b = true.
Proof. intros. unfold vscode.isBeforeOrEqual. by rewrite decide_True. Qed.

Lemma newRange_ordered sl sc el ec :
  vscode.isBeforeOrEqual (vscode.mkPosition sl sc) (vscode.mkPosition el ec) = true →
  vscode.newRange sl sc el ec
  = vscode.mkRange (vscode.mkPosition sl sc) (vscode.mkPosition el ec).
Proof.
  unfold vscode.newRange, vscode.isBeforeOrEqual, vscode.isBefore. simpl. intros H.
  repeat case_decide; try done; try lia.
  apply bool_decide_eq_true in H. case_bool_decide; [done|].
  assert (sc = ec) by lia. assert (sl = el) by lia. by subst.
Qed.

Lemma newRange_normalised sl sc el ec :
  vscode.isBeforeOrEqual (vscode.start (vscode.newRange sl sc el ec))
                         (vscode.end_ (vscode.newRange sl sc el ec)) = true.
Proof.
  unfold vscode.newRange, vscode.isBefore. simpl.
  repeat case_decide; try case_bool_decide; unfold vscode.isBeforeOrEqual; simpl;
    repeat case_decide; try done; try lia; apply bool_decide_eq_true_2; lia.
Qed.

Lemma getRange_ordered sourceFile r :
  tr_start r ≤ tr_end r →
  getRange sourceFile r
  = vscode.mkRange (positionOf sourceFile (tr_start r)) (positionOf sourceFile (tr_end r)).
Proof.
  intros Hr. unfold getRange. rewrite newRange_ordered; [done|].
  by apply (positionOf_mono sourceFile) in Hr.
Qed.

Lemma deletionRange_ordered sourceFile d :
  tr_start (decl_range d) ≤ tr_end (decl_range d) →
  deletionRange sourceFile d
  = vscode.mkRange (vscode.mkPosition (lineOf sourceFile (tr_start (decl_range d))) 0)
                   (vscode.mkPosition (lineOf sourceFile (tr_end (decl_range d)) + 1) 0).
Proof.
  intros Hr. unfold deletionRange. rewrite getRange_ordered by done.
  cbn [vscode.start vscode.end_]. rewrite !positionOf_line.
  apply newRange_ordered, isBeforeOrEqual_lines. cbn [vscode.line].
  apply (lineOf_mono sourceFile) in Hr. lia.
Qed.

(** ** The map holds, per declaration and in source order, its unused nodes *)

Lemma pushUnused_fresh m k n :
  Forall (λ e : DeclRef * list NodeRef, fst (fst e) ≠ fst k) m →
  pushUnused m k n = m ++ [(k, [n])].
Proof.
  induction 1 as [|[k' ns] m Hk _ IH]; simpl; [done|].
  simpl in Hk. rewrite decide_False by done. by rewrite IH.
Qed.

Lemma pushUnused_last m k ns n :
  Forall (λ e : DeclRef * list NodeRef, fst (fst e) ≠ fst k) m →
  pushUnused (m ++ [(k, ns)]) k n = m ++ [(k, ns ++ [n])].
Proof.
  induction 1 as [|[k' ns'] m Hk _ IH]; simpl.
  - by rewrite decide_True.
  - simpl in Hk. rewrite decide_False by done. by rewrite IH.
Qed.

Lemma fold_push_same m k ns syms :
  Forall (λ e : DeclRef * list NodeRef, fst (fst e) ≠ fst k) m →
  Forall (λ s, parent s = k) syms →
  fold_left pushSymbol syms (m ++ [(k, ns)]) = m ++ [(k, ns ++ (node <$> syms))].
Proof.
  intros Hm Hsyms. revert ns.
  induction Hsyms as [|s syms Hs _ IH]; intros ns; simpl.
  - by rewrite app_nil_r.
  - unfold pushSymbol at 2. rewrite Hs, pushUnused_last by done.
    rewrite IH. by rewrite <- app_assoc.
Qed.

Lemma fold_push_group m k syms :
  Forall (λ e : DeclRef * list NodeRef, fst (fst e) ≠ fst k) m →
  Forall (λ s, parent s = k) syms →
  fold_left pushSymbol syms m
  = m ++ match node <$> syms with [] => [] | ns => [(k, ns)] end.
Proof.
  intros Hm Hsyms. destruct Hsyms as [|s syms Hs Hsyms]; simpl.
  - by rewrite app_nil_r.
  - unfold pushSymbol at 2. rewrite Hs, pushUnused_fresh by done.
    by rewrite fold_push_same.
Qed.

Lemma symbolsOfClause_parent index declaration clause :
  Forall (λ s, parent s = (index, declaration) ∧ ref_decl (node s) = index)
         (symbolsOfClause index declaration clause).
Proof.
  unfold symbolsOfClause. apply Forall_app. split.
  - destruct (clause_name clause); by repeat constructor.
  - destruct (clause_namedBindings clause) as [[r elems|r n]|]; [|by repeat constructor..].
    apply Forall_forall. intros s Hs. apply elem_of_lookup_imap in Hs as (i & e & -> & _).
    done.
Qed.

Lemma symbolsOfChild_parent index n :
  Forall (λ s, ∃ declaration,
            n = ImportDeclarationNode declaration ∧
            parent s = (index, declaration) ∧ ref_decl (node s) = index)
         (symbolsOfChild index n).
Proof.
  destruct n as [i|d|k r cs]; simpl; [done| |done].
  destruct (importClause d) as [c|]; [|done].
  eapply Forall_impl; [apply symbolsOfClause_parent|]. intros s [? ?]. eauto.
Qed.

Lemma fold_push_child sourceFile m index n :
  Forall (λ e : DeclRef * list NodeRef, fst (fst e) < index) m →
  fold_left pushSymbol (List.filter (unusedIn sourceFile) (symbolsOfChild index n)) m
  = m ++ option_list (entryOfStatement sourceFile (index, n)).
Proof.
  intros Hm. unfold entryOfStatement, unusedNodesOf. simpl.
  fold (unusedIn sourceFile).
  destruct n as [i|d|k r cs]; simpl; [by rewrite app_nil_r| |by rewrite app_nil_r].
  rewrite (fold_push_group m (index, d)).
  - by destruct (node <$> _).
  - eapply Forall_impl; [done|]. simpl. intros; lia.
  - apply Forall_forall. intros s Hs. apply list_elem_of_In, filter_In in Hs as [Hs _].
    pose proof (symbolsOfChild_parent index (ImportDeclarationNode d)) as Hp.
    rewrite Forall_forall in Hp. apply list_elem_of_In, Hp in Hs as (d' & [= <-] & ? & _).
    done.
Qed.

Lemma entryOfStatement_key sourceFile child entry :
  entryOfStatement sourceFile child = Some entry → fst (fst entry) = fst child.
Proof.
  unfold entryOfStatement. destruct (snd child); [done| |done].
  destruct (unusedNodesOf _ _ _); [done|]. by intros [= <-].
Qed.

Lemma fold_push_children sourceFile l index m :
  Forall (λ e : DeclRef * list NodeRef, fst (fst e) < index) m →
  fold_left pushSymbol
    (List.filter (unusedIn sourceFile) (mjoin (imap (λ i, symbolsOfChild (index + i)) l))) m
  = m ++ omap (entryOfStatement sourceFile) (imap (λ i n, (index + i, n)) l).
Proof.
  revert index m. induction l as [|n l IH]; intros index m Hm.
  - simpl. by rewrite app_nil_r.
  - rewrite !imap_cons. cbn [mjoin list_join]. rewrite List.filter_app, fold_left_app.
    rewrite Nat.add_0_r, fold_push_child by done.
    rewrite (imap_ext _ (λ i, symbolsOfChild (S index + i))); last first.
    { intros i x _. simpl. f_equal. lia. }
    rewrite IH; last first.
    { apply Forall_app. split.
      - eapply Forall_impl; [done|]. simpl. intros; lia.
      - destruct (entryOfStatement sourceFile (index, n)) as [entry|] eqn:He; [|done].
        simpl. apply Forall_singleton. apply entryOfStatement_key in He. simpl in *. lia. }
    rewrite <- app_assoc. f_equal.
    rewrite (imap_ext (_ ∘ S) (λ i n0, (S index + i, n0))); last first.
    { intros i x _. simpl. f_equal. lia. }
    simpl. by destruct (entryOfStatement sourceFile (index, n)).
Qed.

Lemma unusedImportsByDeclaration_by_statement sourceFile :
  unusedImportsByDeclaration sourceFile
  = omap (entryOfStatement sourceFile) (imap pair (forEachChild_SourceFile sourceFile)).
Proof.
  unfold unusedImportsByDeclaration, unusedSymbols, importedSymbols.
  exact (fold_push_children sourceFile (forEachChild_SourceFile sourceFile) 0 [] (Forall_nil_2 _)).
Qed.

Lemma omap_omap {A B C} (f : A → option B) (g : B → option C) (l : list A) :
  omap g (omap f l) = omap (λ x, f x ≫= g) l.
Proof.
  induction l as [|x l IH]; [done|]. simpl.
  destruct (f x) as [y|]; simpl; [|exact IH]. destruct (g y); [f_equal|]; exact IH.
Qed.

Lemma analyzeFile_by_statement sourceFile :
  analyzeFile sourceFile
  = omap (editOfStatement sourceFile) (imap pair (forEachChild_SourceFile sourceFile)).
Proof.
  unfold analyzeFile. rewrite unusedImportsByDeclaration_by_statement.
  by rewrite omap_omap.
Qed.

(** ** Shape and place of the edit of a statement *)

Lemma createEdit_cases sourceFile declaration unusedNodes e :
  createEdit sourceFile declaration unusedNodes = Some e →
  e = vscode.TextEdit_delete (deletionRange sourceFile (snd declaration)) ∨
  (isDeletion e = false ∧
   e = vscode.TextEdit_replace (getRange sourceFile (decl_range (snd declaration)))
                               (newImport sourceFile declaration unusedNodes)).
Proof.
  unfold createEdit. intros H.
  destruct (_ && _); [left; congruence|].
  destruct (_ && _); [left; congruence|].
  destruct (negb _); [|done]. right. by injection H as <-.
Qed.

Lemma editOfStatement_cases sourceFile index n e :
  editOfStatement sourceFile (index, n) = Some e →
  ∃ d, n = ImportDeclarationNode d ∧ is_Some (importClause d) ∧
       (e = vscode.TextEdit_delete (deletionRange sourceFile d) ∨
        (isDeletion e = false ∧ vscode.range e = getRange sourceFile (decl_range d))).
Proof.
  unfold editOfStatement, entryOfStatement, unusedNodesOf. simpl.
  destruct n as [i|d|k r cs]; simpl; [done| |done].
  destruct (node <$> _) as [|u us] eqn:Hu; simpl; [done|].
  intros H. exists d. split; [done|]. split.
  - destruct (importClause d); [done|]. done.
  - apply createEdit_cases in H as [->|[? ->]]; [by left|by right].
Qed.

Lemma rangesOrdered_bounds lo hi rs : rangesOrdered lo hi rs = true → lo ≤ hi.
Proof.
  revert lo. induction rs as [|r rs IH]; intros lo; simpl.
  - by intros ?%bool_decide_eq_true.
  - intros [[? ?]%bool_decide_eq_true ?%IH]%andb_true_iff. lia.
Qed.

Lemma rangesOrdered_lookup lo hi rs i r :
  rangesOrdered lo hi rs = true → rs !! i = Some r →
  lo ≤ tr_start r ∧ tr_start r ≤ tr_end r ∧ tr_end r ≤ hi.
Proof.
  revert lo i. induction rs as [|r0 rs IH]; intros lo i; simpl; [done|].
  intros [[? ?]%bool_decide_eq_true Hrs]%andb_true_iff Hi. destruct i as [|i]; simpl in Hi.
  - injection Hi as <-. apply rangesOrdered_bounds in Hrs. lia.
  - destruct (IH _ _ Hrs Hi) as (? & ? & ?). lia.
Qed.

Lemma rangesOrdered_lookup_lt lo hi rs i j ri rj :
  rangesOrdered lo hi rs = true → i < j → rs !! i = Some ri → rs !! j = Some rj →
  tr_end ri ≤ tr_start rj.
Proof.
  revert lo i j. induction rs as [|r0 rs IH]; intros lo i j; simpl; [done|].
  intros [[? ?]%bool_decide_eq_true Hrs]%andb_true_iff Hij Hi Hj.
  destruct j as [|j]; [lia|]. simpl in Hj. destruct i as [|i]; simpl in Hi.
  - injection Hi as <-. by destruct (rangesOrdered_lookup _ _ _ _ _ Hrs Hj).
  - eapply (IH _ i j); eauto with lia.
Qed.

Lemma statementsOrdered_lookup sourceFile i n :
  statementsOrdered sourceFile = true →
  forEachChild_SourceFile sourceFile !! i = Some n →
  tr_start (node_range n) ≤ tr_end (node_range n).
Proof.
  intros Hs Hi. eapply (rangesOrdered_lookup _ _ _ i (node_range n)) in Hs; [lia|].
  by rewrite list_lookup_fmap, Hi.
Qed.

Lemma statementsOrdered_lookup_lt sourceFile i j ni nj :
  statementsOrdered sourceFile = true → i < j →
  forEachChild_SourceFile sourceFile !! i = Some ni →
  forEachChild_SourceFile sourceFile !! j = Some nj →
  tr_end (node_range ni) ≤ tr_start (node_range nj).
Proof.
  intros Hs Hij Hi Hj.
  eapply (rangesOrdered_lookup_lt _ _ _ i j (node_range ni) (node_range nj)) in Hs;
    [done|done|..]; by rewrite list_lookup_fmap, ?Hi, ?Hj.
Qed.

(** Where the edit of a well-ordered declaration starts and ends. *)
Lemma edit_range sourceFile d e :
  tr_start (decl_range d) ≤ tr_end (decl_range d) →
  (e = vscode.TextEdit_delete (deletionRange sourceFile d) ∨
   (isDeletion e = false ∧ vscode.range e = getRange sourceFile (decl_range d))) →
  (isDeletion e = true ∧
   vscode.range e
   = vscode.mkRange (vscode.mkPosition (lineOf sourceFile (tr_start (decl_range d))) 0)
                    (vscode.mkPosition (lineOf sourceFile (tr_end (decl_range d)) + 1) 0)) ∨
  (isDeletion e = false ∧
   vscode.range e
   = vscode.mkRange (positionOf sourceFile (tr_start (decl_range d)))
                    (positionOf sourceFile (tr_end (decl_range d)))).
Proof.
  intros Hd [->|[He Hr]].
  - left. split; [done|]. simpl. by apply deletionRange_ordered.
  - right. split; [done|]. rewrite Hr. by apply getRange_ordered.
Qed.

Lemma isBeforeOrEqual_next_line l l' c :
  l < l' →
  vscode.isBeforeOrEqual (vscode.mkPosition (l + 1) 0) (vscode.mkPosition l' c) = true.
Proof.
  intros Hl. unfold vscode.isBeforeOrEqual. simpl.
  repeat case_decide; try done; try lia; apply bool_decide_eq_true_2; lia.
Qed.

(** The edits of two declarations, the first of which ends before the
    second starts, do not overlap, unless one of them is a deletion and the
    two share a line. *)
Lemma edits_apart sourceFile d1 d2 e1 e2 :
  tr_start (decl_range d1) ≤ tr_end (decl_range d1) →
  tr_end (decl_range d1) ≤ tr_start (decl_range d2) →
  tr_start (decl_range d2) ≤ tr_end (decl_range d2) →
  (e1 = vscode.TextEdit_delete (deletionRange sourceFile d1) ∨
   (isDeletion e1 = false ∧ vscode.range e1 = getRange sourceFile (decl_range d1))) →
  (e2 = vscode.TextEdit_delete (deletionRange sourceFile d2) ∨
   (isDeletion e2 = false ∧ vscode.range e2 = getRange sourceFile (decl_range d2))) →
  (isDeletion e1 || isDeletion e2 = true →
   lineOf sourceFile (tr_end (decl_range d1)) < lineOf sourceFile (tr_start (decl_range d2))) →
  vscode.isBeforeOrEqual (vscode.end_ (vscode.range e1)) (vscode.start (vscode.range e2)) = true.
Proof.
  intros H1 H12 H2 He1 He2 Hlines.
  apply (edit_range _ _ _ H1) in He1 as [[Hd1 ->]|[Hd1 ->]];
    apply (edit_range _ _ _ H2) in He2 as [[Hd2 ->]|[Hd2 ->]];
    rewrite Hd1, Hd2 in Hlines; cbn [vscode.start vscode.end_ orb] in *.
  - by apply isBeforeOrEqual_next_line, Hlines.
  - specialize (Hlines eq_refl).
    rewrite <- (positionOf_line sourceFile (tr_start (decl_range d2))) in Hlines.
    destruct (positionOf sourceFile (tr_start (decl_range d2))) as [l c].
    by apply isBeforeOrEqual_next_line.
  - apply isBeforeOrEqual_lines. cbn [vscode.line]. rewrite positionOf_line. by apply Hlines.
  - by apply positionOf_mono.
Qed.

Lemma omap_lookup_Some {A B} (f : A → option B) (l : list A) b y :
  omap f l !! b = Some y → ∃ j x, l !! j = Some x ∧ f x = Some y.
Proof.
  intros H%list_elem_of_lookup_2. apply list_elem_of_omap in H as (x & Hx & Hf).
  apply list_elem_of_lookup_1 in Hx as [j Hj]. eauto.
Qed.

Lemma omap_lookup_lt {A B} (f : A → option B) (l : list A) a b x y :
  a < b → omap f l !! a = Some x → omap f l !! b = Some y →
  ∃ i j xi xj, i < j ∧ l !! i = Some xi ∧ l !! j = Some xj ∧ f xi = Some x ∧ f xj = Some y.
Proof.
  revert a b. induction l as [|z l IH]; intros a b Hab Ha Hb; [done|].
  csimpl in Ha. csimpl in Hb. destruct (f z) as [w|] eqn:Hz.
  - destruct b as [|b]; [lia|]. simpl in Hb. destruct a as [|a]; simpl in Ha.
    + injection Ha as <-. apply omap_lookup_Some in Hb as (j & xj & Hj & Hf).
      exists 0, (S j), z, xj. repeat split; try done. lia.
    + destruct (IH a b) as (i & j & xi & xj & ? & ? & ? & ? & ?); [lia|done|done|].
      exists (S i), (S j), xi, xj. repeat split; try done. lia.
  - destruct (IH a b) as (i & j & xi & xj & ? & ? & ? & ? & ?); [lia|done|done|].
    exists (S i), (S j), xi, xj. repeat split; try done. lia.
Qed.

Lemma pairwise_lookup {A} (R : A → A → bool) (l : list A) a b x y :
  pairwise R l = true → a < b → l !! a = Some x → l !! b = Some y → R x y = true.
Proof.
  revert a b. induction l as [|z l IH]; intros a b; simpl; [done|].
  intros [Hz Hl]%andb_true_iff Hab Ha Hb.
  destruct b as [|b]; [lia|]. simpl in Hb. destruct a as [|a]; simpl in Ha.
  - injection Ha as <-. rewrite forallb_forall in Hz.
    by apply Hz, list_elem_of_In, list_elem_of_lookup_2 with b.
  - apply (IH a b); auto with lia.
Qed.

Lemma analyzeFile_editedStatements sourceFile :
  analyzeFile sourceFile = snd <$> editedStatements sourceFile.
Proof.
  rewrite analyzeFile_by_statement. unfold editedStatements.
  induction (imap pair (forEachChild_SourceFile sourceFile)) as [|c l IH]; [done|].
  csimpl. destruct (editOfStatement sourceFile c); csimpl; [f_equal|]; exact IH.
Qed.

Lemma editedStatements_lookup sourceFile a n e :
  editedStatements sourceFile !! a = Some (n, e) →
  ∃ i, forEachChild_SourceFile sourceFile !! i = Some n ∧
       editOfStatement sourceFile (i, n) = Some e.
Proof.
  intros (i & [i' n'] & Hi & Hf)%omap_lookup_Some.
  apply list_lookup_imap_Some in Hi as (n'' & Hi & [= -> ->]).
  simpl in Hf. destruct (editOfStatement sourceFile (i, n'')) eqn:He; [|done].
  injection Hf as <- <-. eauto.
Qed.

Lemma editedStatements_lookup_lt sourceFile a b na ea nb eb :
  a < b →
  editedStatements sourceFile !! a = Some (na, ea) →
  editedStatements sourceFile !! b = Some (nb, eb) →
  ∃ i j, i < j ∧
         forEachChild_SourceFile sourceFile !! i = Some na ∧
         forEachChild_SourceFile sourceFile !! j = Some nb ∧
         editOfStatement sourceFile (i, na) = Some ea ∧
         editOfStatement sourceFile (j, nb) = Some eb.
Proof.
  intros Hab Ha Hb.
  destruct (omap_lookup_lt _ _ _ _ _ _ Hab Ha Hb)
    as (i & j & [i' ni] & [j' nj] & Hij & Hi & Hj & Hfi & Hfj).
  apply list_lookup_imap_Some in Hi as (ni' & Hi & [= -> ->]).
  apply list_lookup_imap_Some in Hj as (nj' & Hj & [= -> ->]).
  simpl in Hfi, Hfj.
  destruct (editOfStatement sourceFile (i, ni')) eqn:Hei; [|done].
  destruct (editOfStatement sourceFile (j, nj')) eqn:Hej; [|done].
  injection Hfi as <- <-. injection Hfj as <- <-. exists i, j. eauto.
Qed.

Lemma createEdit_range_normalised sourceFile declaration unusedNodes e :
  createEdit sourceFile declaration unusedNodes = Some e →
  vscode.isBeforeOrEqual (vscode.start (vscode.range e)) (vscode.end_ (vscode.range e)) = true.
Proof.
  intros [->|[_ ->]]%createEdit_cases; apply newRange_normalised.
Qed.

(** ** Order and overlap of the edits *)

(** C5, as amended.  Every child of the source file gives rise to at most
    one edit and the edits come in the order of their statements; when the
    statements follow one another in the text and no deleted statement
    shares a line with another edited statement, every edit ends where or
    before the next one starts (and starts where or before it ends), so the
    ranges are in file order and do not overlap. *)
Theorem edits_in_order_without_overlap sourceFile :
  statementsOrdered sourceFile = true →
  deletionsApart sourceFile = true →
  analyzeFile sourceFile
  = omap (editOfStatement sourceFile) (imap pair (forEachChild_SourceFile sourceFile)) ∧
  ∀ a b ea eb,
    a < b →
    analyzeFile sourceFile !! a = Some ea →
    analyzeFile sourceFile !! b = Some eb →
    vscode.isBeforeOrEqual (vscode.start (vscode.range ea)) (vscode.end_ (vscode.range ea))
    = true ∧
    vscode.isBeforeOrEqual (vscode.end_ (vscode.range ea)) (vscode.start (vscode.range eb))
    = true.
Proof.
  intros Hordered Hapart. split; [apply analyzeFile_by_statement|].
  intros a b ea eb Hab Ha Hb. split.
  { apply list_elem_of_lookup_2 in Ha. unfold analyzeFile in Ha.
    apply list_elem_of_omap in Ha as (entry & _ & Ha).
    by apply createEdit_range_normalised in Ha. } rewrite analyzeFile_editedStatements in Ha, Hb.
  apply list_lookup_fmap_Some in Ha as ([na ea'] & -> & Ha).
  apply list_lookup_fmap_Some in Hb as ([nb eb'] & -> & Hb). simpl.
  pose proof (pairwise_lookup _ _ _ _ _ _ Hapart Hab Ha Hb) as Hlines. simpl in Hlines.
  destruct (editedStatements_lookup_lt _ _ _ _ _ _ _ Hab Ha Hb)
    as (i & j & Hij & Hi & Hj & Hei & Hej).
  pose proof (statementsOrdered_lookup _ _ _ Hordered Hi) as H1.
  pose proof (statementsOrdered_lookup _ _ _ Hordered Hj) as H2.
  pose proof (statementsOrdered_lookup_lt _ _ _ _ _ Hordered Hij Hi Hj) as H12.
  apply editOfStatement_cases in Hei as (d1 & -> & _ & Hc1).
  apply editOfStatement_cases in Hej as (d2 & -> & _ & Hc2).
  simpl in H1, H2, H12. apply (edits_apart sourceFile d1 d2); try done.
  intros Hdel. rewrite Hdel in Hlines. simpl in Hlines.
  by apply bool_decide_eq_true in Hlines.
Qed.

Lemma edits_in_order_without_overlap_witness :
  statementsOrdered Inputs.besideUnused = true ∧
  deletionsApart Inputs.besideUnused = true ∧
  analyzeFile Inputs.besideUnused
  = omap (editOfStatement Inputs.besideUnused)
         (imap pair (forEachChild_SourceFile Inputs.besideUnused)) ∧
  ∀ a b ea eb,
    a < b →
    analyzeFile Inputs.besideUnused !! a = Some ea →
    analyzeFile Inputs.besideUnused !! b = Some eb →
    vscode.isBeforeOrEqual (vscode.start (vscode.range ea)) (vscode.end_ (vscode.range ea))
    = true ∧
    vscode.isBeforeOrEqual (vscode.end_ (vscode.range ea)) (vscode.start (vscode.range eb))
    = true.
Proof.
  split; [vm_compute; reflexivity|]. split; [vm_compute; reflexivity|].
  apply (edits_in_order_without_overlap Inputs.besideUnused); vm_compute; reflexivity.
Defined.

(** C5, as stated, fails where two import declarations share a line: the
    deletion of the first one's line covers the replaced range of the
    second. *)
Lemma edits_overlap_on_shared_line :
  treeMatchesText Inputs.sharedLine = true ∧
  analyzeFile Inputs.sharedLine
  = [ vscode.TextEdit_delete (wholeLines 0 1);
      vscode.TextEdit_replace (onLine 0 23 48) "import { c } from 'y';" ] ∧
  ¬ rangesDisjoint (wholeLines 0 1) (onLine 0 23 48) ∧
  Host.applyEdits (text Inputs.sharedLine) (analyzeFile Inputs.sharedLine) = None.
Proof.
  split; [vm_compute; reflexivity|]. split; [vm_compute; reflexivity|].
  split; [|vm_compute; reflexivity].
  intros [H|H]; vm_compute in H; discriminate.
Qed.

(** ** Re-exports and side-effect imports *)

Lemma symbolsOfChild_not_candidate index s :
  isReExportOrSideEffectImport s = true → symbolsOfChild index s = [].
Proof.
  destruct s as [i|d|k r cs]; simpl; [done| |done].
  intros ->%bool_decide_eq_true. done.
Qed.

Lemma editOfStatement_not_candidate sourceFile index s :
  isReExportOrSideEffectImport s = true → editOfStatement sourceFile (index, s) = None.
Proof.
  intros Hs. unfold editOfStatement, entryOfStatement, unusedNodesOf. simpl.
  rewrite symbolsOfChild_not_candidate by done. by destruct s.
Qed.

(** A re-export or a side-effect import contributes no symbol and no edit
    of its own; when the statements follow one another in the text and no
    deleted import declaration shares a line with it, no edit touches its
    range. *)
Theorem not_candidates_untouched sourceFile k s :
  statementsOrdered sourceFile = true →
  forEachChild_SourceFile sourceFile !! k = Some s →
  isReExportOrSideEffectImport s = true →
  deletionsAvoid sourceFile s = true →
  symbolsOfChild k s = [] ∧
  editOfStatement sourceFile (k, s) = None ∧
  ∀ e, e ∈ analyzeFile sourceFile →
       rangesDisjoint (vscode.range e) (getRange sourceFile (node_range s)).
Proof.
  intros Hordered Hk Hs Havoid.
  split; [by apply symbolsOfChild_not_candidate|].
  split; [by apply editOfStatement_not_candidate|].
  intros e He. rewrite analyzeFile_editedStatements in He.
  apply list_elem_of_fmap in He as ([n e'] & -> & He). simpl.
  unfold deletionsAvoid in Havoid. rewrite forallb_forall in Havoid.
  pose proof (Havoid _ (proj1 (list_elem_of_In _ _) He)) as Hlines. simpl in Hlines.
  apply list_elem_of_lookup_1 in He as [a Ha].
  apply editedStatements_lookup in Ha as (j & Hj & Hej).
  pose proof (statementsOrdered_lookup _ _ _ Hordered Hk) as Hsr.
  pose proof (statementsOrdered_lookup _ _ _ Hordered Hj) as Hnr.
  assert (j ≠ k) as Hjk.
  { intros ->. rewrite Hk in Hj. injection Hj as <-.
    by rewrite editOfStatement_not_candidate in Hej. }
  rewrite (getRange_ordered _ _ Hsr). unfold rangesDisjoint. cbn [vscode.start vscode.end_].
  apply editOfStatement_cases in Hej as (d & -> & _ & Hc).
  simpl in Hnr. apply (edit_range _ _ _ Hnr) in Hc as [[Hd ->]|[Hd ->]];
    cbn [vscode.start vscode.end_].
  - rewrite Hd in Hlines. simpl in Hlines. unfold onEarlierLines in Hlines.
    apply orb_true_iff in Hlines as [Hl%bool_decide_eq_true|Hl%bool_decide_eq_true];
      simpl in Hl.
    + left. rewrite <- (positionOf_line sourceFile (tr_start (node_range s))) in Hl.
      destruct (positionOf sourceFile (tr_start (node_range s))).
      by apply isBeforeOrEqual_next_line.
    + right. apply isBeforeOrEqual_lines. cbn [vscode.line]. by rewrite positionOf_line.
  - destruct (decide (j < k)) as [Hlt|Hge].
    + left. apply positionOf_mono.
      by apply (statementsOrdered_lookup_lt _ _ _ _ _ Hordered Hlt Hj Hk).
    + right. apply positionOf_mono. assert (k < j) as Hlt by lia.
      by apply (statementsOrdered_lookup_lt _ _ _ _ _ Hordered Hlt Hk Hj).
Qed.

Lemma not_candidates_untouched_witness :
  statementsOrdered Inputs.onOwnLines = true ∧
  forEachChild_SourceFile Inputs.onOwnLines !! 2 = Some Inputs.reExportOnOwnLine ∧
  analyzeFile Inputs.onOwnLines = [vscode.TextEdit_delete (wholeLines 1 2)] ∧
  getRange Inputs.onOwnLines (node_range Inputs.reExportOnOwnLine) = onLine 2 0 24 ∧
  (symbolsOfChild 2 Inputs.reExportOnOwnLine = [] ∧
   editOfStatement Inputs.onOwnLines (2, Inputs.reExportOnOwnLine) = None ∧
   ∀ e, e ∈ analyzeFile Inputs.onOwnLines →
        rangesDisjoint (vscode.range e)
                       (getRange Inputs.onOwnLines (node_range Inputs.reExportOnOwnLine))).
Proof.
  split; [vm_compute; reflexivity|]. split; [reflexivity|].
  split; [vm_compute; reflexivity|]. split; [vm_compute; reflexivity|].
  apply (not_candidates_untouched Inputs.onOwnLines 2); vm_compute; reflexivity.
Defined.

(** C9.  A side-effect import and a re-export are removed where they
    share a line with an unused import: the edits are the deletions of the
    two lines, the first covers the range of the side-effect import and the
    second the range of the re-export, and the host, applying them, leaves
    the empty text. *)
Lemma not_candidates_deleted_on_shared_line :
  treeMatchesText Inputs.besideUnused = true ∧
  analyzeFile Inputs.besideUnused
  = [vscode.TextEdit_delete (wholeLines 0 1); vscode.TextEdit_delete (wholeLines 1 2)] ∧
  Inputs.besideUnused.(statements) !! 1 = Some (Inputs.importNode 23 39 None 30 38) ∧
  getRange Inputs.besideUnused (mkTextRange 23 39) = onLine 0 23 39 ∧
  ¬ rangesDisjoint (wholeLines 0 1) (onLine 0 23 39) ∧
  getRange Inputs.besideUnused (mkTextRange 40 64) = onLine 1 0 24 ∧
  ¬ rangesDisjoint (wholeLines 1 2) (onLine 1 0 24) ∧
  Host.applyEdits (text Inputs.besideUnused) (analyzeFile Inputs.besideUnused) = Some "".
Proof.
  repeat split; try (vm_compute; reflexivity);
    intros [H|H]; vm_compute in H; discriminate.
Qed.

(** ** What the first pass records *)

Lemma Node_nested_ind (P : Node → Prop) :
  (∀ i, P (IdentifierNode i)) →
  (∀ d, P (ImportDeclarationNode d)) →
  (∀ kind r children, Forall P children → P (OtherNode kind r children)) →
  ∀ n, P n.
Proof.
  intros Hi Hd Ho. fix IH 1. intros [i|d|kind r children]; [apply Hi|apply Hd|].
  apply Ho. induction children as [|c cs IHcs]; constructor; [apply IH|apply IHcs].
Qed.

Lemma visit_children x children :
  Forall (λ c, ∀ acc, x ∈ visit c acc ↔ x ∈ acc ∨ spelledIn x c = true) children →
  ∀ acc, x ∈ fold_left (λ acc child, visit child acc) children acc
         ↔ x ∈ acc ∨ existsb (spelledIn x) children = true.
Proof.
  induction 1 as [|c cs Hc _ IH]; intros acc; simpl.
  - split; [by left|]. by intros [?|?].
  - rewrite IH, Hc, orb_true_iff. tauto.
Qed.

Lemma visit_spec x n :
  ∀ acc, x ∈ visit n acc ↔ x ∈ acc ∨ spelledIn x n = true.
Proof.
  induction n as [i|d|kind r children IH] using Node_nested_ind; intros acc; simpl.
  - rewrite elem_of_union, elem_of_singleton, String.eqb_eq. split; intros [?|?]; auto.
  - split; [by left|]. by intros [?|?].
  - by apply visit_children.
Qed.

(** A name is in the set exactly when an identifier node outside the import
    declarations spells it: wherever that node stands, in an expression, a
    type, a declaration, an object key or an export specifier. *)
Lemma allIdentifiers_spec sourceFile x :
  x ∈ allIdentifiers sourceFile ↔ spelledOutsideImports sourceFile x = true.
Proof.
  unfold allIdentifiers, spelledOutsideImports. rewrite visit_children.
  - split; [|by right]. intros [H|H]; [|done]. by apply not_elem_of_empty in H.
  - apply Forall_forall. intros c _. apply visit_spec.
Qed.

(** ** What the second pass collects, and what becomes of an unused node *)

Lemma symbolsOfClause_slot index declaration clause s :
  s ∈ symbolsOfClause index declaration clause → slotFilled clause (ref_slot (node s)).
Proof.
  unfold symbolsOfClause. rewrite elem_of_app. intros [Hs|Hs].
  - destruct (clause_name clause) eqn:Hn; [|by apply elem_of_nil in Hs].
    apply list_elem_of_singleton in Hs as ->. simpl. by rewrite Hn.
  - destruct (clause_namedBindings clause) as [[r elems|r n]|] eqn:Hb;
      [| |by apply elem_of_nil in Hs].
    + apply elem_of_lookup_imap in Hs as (i & e & -> & Hi). simpl.
      exists r, elems. by rewrite Hi.
    + apply list_elem_of_singleton in Hs as ->. simpl. eauto.
Qed.

Lemma importedSymbols_elem sourceFile s :
  s ∈ importedSymbols sourceFile →
  ∃ index declaration clause,
    forEachChild_SourceFile sourceFile !! index = Some (ImportDeclarationNode declaration) ∧
    importClause declaration = Some clause ∧
    s ∈ symbolsOfChild index (ImportDeclarationNode declaration) ∧
    parent s = (index, declaration) ∧
    ref_decl (node s) = index ∧
    slotFilled clause (ref_slot (node s)).
Proof.
  unfold importedSymbols. intros (l & Hs & Hl)%list_elem_of_join.
  apply elem_of_lookup_imap in Hl as (index & n & -> & Hn).
  pose proof (symbolsOfChild_parent index n) as Hp. rewrite Forall_forall in Hp.
  destruct (Hp _ Hs) as (d & -> & Hparent & Hdecl).
  simpl in Hs. destruct (importClause d) as [clause|] eqn:Hc; [|by apply elem_of_nil in Hs].
  exists index, d, clause. repeat split; try done.
  - simpl. by rewrite Hc.
  - by apply symbolsOfClause_slot with index d.
Qed.

Lemma existsb_elem {A} (f : A → bool) (l : list A) x :
  x ∈ l → f x = true → existsb f l = true.
Proof. intros Hx Hf. apply existsb_exists. exists x. by rewrite <- list_elem_of_In. Qed.

Lemma unused_node_omitted sourceFile index declaration clause unusedNodes n :
  importClause declaration = Some clause →
  n ∈ unusedNodes →
  ref_decl n = index →
  slotFilled clause (ref_slot n) →
  omitted sourceFile (index, declaration) unusedNodes n.
Proof.
  intros Hc Hn Hi Hslot. destruct n as [index' slot]. simpl in *. subst index'.
  unfold omitted. simpl. destruct slot as [|i|]; simpl in Hslot.
  - destruct Hslot as [x Hx].
    unfold defaultImportName, isDefaultImportUsed, isDefaultImportUnused. simpl.
    rewrite Hc. simpl. rewrite Hx.
    rewrite (existsb_elem _ _ _ Hn); [done|]. simpl. by apply bool_decide_eq_true_2.
  - destruct Hslot as (r & elems & Hb & _). intros kept.
    unfold usedSpecifiers. simpl. rewrite Hc. simpl. rewrite Hb. intros [= <-].
    intros ([i' e] & -> & He)%list_elem_of_fmap. simpl in *.
    apply list_elem_of_In, filter_In in He as [_ He]. simpl in He.
    apply negb_true_iff in He.
    rewrite (existsb_elem _ _ _ Hn) in He; [done|]. by apply bool_decide_eq_true_2.
  - destruct Hslot as (r & x & Hb).
    unfold createEdit, isNamespaceImportUsed, isNamespaceImport. simpl.
    rewrite Hc. simpl. rewrite Hb. simpl.
    rewrite (existsb_elem _ _ _ Hn); [done|]. simpl. by apply bool_decide_eq_true_2.
Qed.

Lemma unusedSymbols_elem sourceFile symbol :
  symbol ∈ unusedSymbols sourceFile
  ↔ symbol ∈ importedSymbols sourceFile ∧ name symbol ∉ allIdentifiers sourceFile.
Proof.
  unfold unusedSymbols. rewrite !list_elem_of_In, filter_In, negb_true_iff.
  by rewrite bool_decide_eq_false.
Qed.

(** An unused symbol is among the unused nodes of its declaration's map
    entry, the entry is the one the edit of the declaration is made from, and
    that edit is built without the symbol's node. *)
Lemma unused_symbol_entry sourceFile symbol :
  symbol ∈ unusedSymbols sourceFile →
  ∃ unusedNodes,
    (parent symbol, unusedNodes) ∈ unusedImportsByDeclaration sourceFile ∧
    node symbol ∈ unusedNodes ∧
    editOfStatement sourceFile (fst (parent symbol), ImportDeclarationNode (snd (parent symbol)))
    = createEdit sourceFile (parent symbol) unusedNodes ∧
    omitted sourceFile (parent symbol) unusedNodes (node symbol).
Proof.
  intros [Hs Hunused]%unusedSymbols_elem.
  apply importedSymbols_elem in Hs
    as (index & d & clause & Hindex & Hclause & Hs & Hparent & Hdecl & Hslot).
  assert (node symbol ∈ unusedNodesOf sourceFile index (ImportDeclarationNode d)) as Hnode.
  { unfold unusedNodesOf. apply list_elem_of_fmap_2, list_elem_of_In, filter_In.
    split; [by apply list_elem_of_In|]. by apply negb_true_iff, bool_decide_eq_false. }
  assert (entryOfStatement sourceFile (index, ImportDeclarationNode d)
          = Some ((index, d), unusedNodesOf sourceFile index (ImportDeclarationNode d)))
    as Hentry.
  { unfold entryOfStatement. simpl.
    destruct (unusedNodesOf sourceFile index (ImportDeclarationNode d)); [|done].
    by apply elem_of_nil in Hnode. }
  exists (unusedNodesOf sourceFile index (ImportDeclarationNode d)). rewrite Hparent.
  split; [|split; [done|split]].
  - rewrite unusedImportsByDeclaration_by_statement. apply list_elem_of_omap.
    exists (index, ImportDeclarationNode d). split; [|done].
    by apply (elem_of_lookup_imap_2 pair) in Hindex.
  - unfold editOfStatement. simpl. by rewrite Hentry.
  - by apply unused_node_omitted with clause.
Qed.

(** ** The text of the rebuilt statement *)

Lemma existsb_same {A} (f g : A → bool) (l : list A) :
  (∀ x, f x = g x) → existsb f l = existsb g l.
Proof. intros Hfg. induction l as [|x l IH]; simpl; [done|]. by rewrite Hfg, IH. Qed.

Lemma existsb_identity (r : NodeRef) (f : NodeRef → bool) (l : list NodeRef) :
  (∀ n, f n = bool_decide (n = r)) → existsb f l = bool_decide (r ∈ l).
Proof.
  intros Hf. induction l as [|n l IH].
  - rewrite bool_decide_eq_false_2; [done|apply not_elem_of_nil].
  - cbn [existsb]. rewrite IH, Hf. destruct (decide (n = r)) as [->|Hne].
    + rewrite bool_decide_eq_true_2 by done. symmetry. apply bool_decide_eq_true_2.
      apply list_elem_of_here.
    + rewrite (bool_decide_eq_false_2 _ Hne). simpl. apply bool_decide_ext.
      rewrite elem_of_cons. split; [by right|]. by intros [->|?].
Qed.

Lemma defaultImportName_surviving sourceFile declaration unusedNodes :
  (if truthy (defaultImportName sourceFile declaration unusedNodes)
   then defaultImportName sourceFile declaration unusedNodes else None)
  = survivingDefault sourceFile declaration unusedNodes.
Proof.
  unfold defaultImportName, isDefaultImportUsed, isDefaultImportUnused, survivingDefault.
  simpl. destruct (importClause (snd declaration) ≫= clause_name) as [n|]; [|done].
  rewrite (existsb_identity (mkNodeRef (fst declaration) SlotClauseName)).
  - destruct (bool_decide _); simpl; [done|].
    by destruct (String.eqb (getText sourceFile (id_range n)) "").
  - intros [index slot]. destruct (decide (mkNodeRef index slot
                                           = mkNodeRef (fst declaration) SlotClauseName))
      as [[= -> ->]|Hne].
    + by rewrite !bool_decide_eq_true_2.
    + rewrite (bool_decide_eq_false_2 _ Hne), andb_comm.
      rewrite bool_decide_eq_false_2; [done|]. congruence.
Qed.

Lemma usedSpecifiers_surviving declaration unusedNodes :
  default [] (usedSpecifiers declaration unusedNodes)
  = survivingSpecifiers declaration unusedNodes.
Proof.
  unfold usedSpecifiers, survivingSpecifiers. simpl.
  destruct (importClause (snd declaration) ≫= clause_namedBindings) as [[r elems|r n]|];
    [|done..].
  simpl. apply List.filter_ext. intros [i e]. simpl.
  rewrite (existsb_identity (mkNodeRef (fst declaration) (SlotElement i))) by done.
  symmetry. apply bool_decide_not.
Qed.

Lemma hasUsedSpecifiers_surviving declaration unusedNodes :
  hasUsedSpecifiers declaration unusedNodes
  = match survivingSpecifiers declaration unusedNodes with [] => false | _ :: _ => true end.
Proof.
  rewrite <- usedSpecifiers_surviving. unfold hasUsedSpecifiers.
  by destruct (usedSpecifiers declaration unusedNodes) as [[|s kept]|].
Qed.

(** The text the edit loop builds is the rebuilt statement of the
    specification, printed from what survives. *)
Lemma newImport_prints sourceFile declaration unusedNodes :
  newImport sourceFile declaration unusedNodes
  = rebuiltStatement sourceFile declaration unusedNodes.
Proof.
  unfold newImport, rebuiltStatement, printImport.
  rewrite hasUsedSpecifiers_surviving, usedSpecifiers_surviving.
  rewrite <- defaultImportName_surviving.
  destruct (defaultImportName sourceFile declaration unusedNodes) as [d|]; simpl;
    [destruct (negb (String.eqb d ""))|];
    by destruct (survivingSpecifiers declaration unusedNodes).
Qed.

(** The edit the loop makes from a map entry is the edit of the
    specification. *)
Lemma createEdit_spec sourceFile declaration unusedNodes :
  createEdit sourceFile declaration unusedNodes
  = editOfEntry sourceFile declaration unusedNodes.
Proof.
  unfold createEdit, editOfEntry, goesWhole, originalImport.
  rewrite newImport_prints, hasUsedSpecifiers_surviving, <- defaultImportName_surviving.
  assert (isNamespaceImport declaration && negb (isNamespaceImportUsed declaration unusedNodes)
          = hasNamespaceImport (snd declaration) && existsb isIdentifier unusedNodes) as ->.
  { unfold isNamespaceImportUsed. change (isNamespaceImport declaration)
      with (hasNamespaceImport (snd declaration)).
    destruct (hasNamespaceImport (snd declaration)); [|done]. simpl.
    rewrite negb_involutive. apply existsb_same. intros [index slot].
    unfold isIdentifier, parentName. simpl.
    destruct slot; simpl; [|done|]; by rewrite bool_decide_eq_true_2. }
  destruct (hasNamespaceImport (snd declaration) && existsb isIdentifier unusedNodes);
    [done|]. simpl.
  destruct (defaultImportName sourceFile declaration unusedNodes) as [d|]; simpl;
    [destruct (negb (String.eqb d ""))|];
    destruct (survivingSpecifiers declaration unusedNodes); simpl; try done;
    by destruct (String.eqb _ _).
Qed.

(** ** Names spelled only inside import declarations *)

Lemma unused_node_left_out sourceFile index declaration clause unusedNodes n :
  importClause declaration = Some clause →
  n ∈ unusedNodes →
  ref_decl n = index →
  slotFilled clause (ref_slot n) →
  match ref_slot n with
  | SlotClauseName => survivingDefault sourceFile (index, declaration) unusedNodes = None
  | SlotElement i => i ∉ (survivingSpecifiers (index, declaration) unusedNodes).*1
  | SlotNamespaceName => goesWhole sourceFile (index, declaration) unusedNodes = true
  end.
Proof.
  intros Hc Hn Hi Hslot. destruct n as [index' slot]. simpl in *. subst index'.
  destruct slot as [|i|]; simpl in Hslot.
  - unfold survivingDefault. simpl.
    destruct (importClause declaration ≫= clause_name); [|done].
    by rewrite bool_decide_eq_true_2.
  - unfold survivingSpecifiers. simpl.
    destruct (importClause declaration ≫= clause_namedBindings) as [[r elems|r x]|];
      [|apply not_elem_of_nil..].
    intros ([i' e] & -> & He)%list_elem_of_fmap. simpl in *.
    apply list_elem_of_In, filter_In in He as [_ He%bool_decide_eq_true]. done.
  - destruct Hslot as (r & x & Hb). unfold goesWhole, hasNamespaceImport. simpl.
    rewrite Hc. simpl. rewrite Hb. simpl. by rewrite (existsb_elem _ _ _ Hn).
Qed.

(** C7, as amended.  A name that no identifier node outside the import
    declarations spells, so one that occurs only as a specifier of import
    declarations, is not recorded as used: a symbol with that local name is
    unused and is among the unused nodes of its declaration's map entry.
    The edit of that declaration is the edit of the specification, made from
    what survives, and it is in the result: the deletion of the statement's
    lines when nothing survives (or when the statement binds a namespace),
    otherwise the replacement by the statement printed from the surviving
    default name and the surviving specifiers, unless that text equals the
    statement once both are trimmed.  The symbol is not among what
    survives: an unused default name is not printed, an unused element is
    not among the printed specifiers, and an unused namespace name takes the
    whole statement.  (A name in the specifier list of an export
    declaration is spelled outside the import declarations.) *)
Theorem unused_when_spelled_only_in_imports sourceFile k symbol :
  importedSymbols sourceFile !! k = Some symbol →
  spelledOutsideImports sourceFile (name symbol) = false →
  (name symbol ∉ allIdentifiers sourceFile) ∧
  symbol ∈ unusedSymbols sourceFile ∧
  ∃ unusedNodes,
    (parent symbol, unusedNodes) ∈ unusedImportsByDeclaration sourceFile ∧
    node symbol ∈ unusedNodes ∧
    editOfStatement sourceFile (fst (parent symbol), ImportDeclarationNode (snd (parent symbol)))
    = editOfEntry sourceFile (parent symbol) unusedNodes ∧
    (∀ e, editOfEntry sourceFile (parent symbol) unusedNodes = Some e →
          e ∈ analyzeFile sourceFile) ∧
    match ref_slot (node symbol) with
    | SlotClauseName => survivingDefault sourceFile (parent symbol) unusedNodes = None
    | SlotElement i => i ∉ (survivingSpecifiers (parent symbol) unusedNodes).*1
    | SlotNamespaceName => goesWhole sourceFile (parent symbol) unusedNodes = true
    end.
Proof.
  intros Hk Hspelled.
  assert (name symbol ∉ allIdentifiers sourceFile) as Hnot.
  { rewrite allIdentifiers_spec. by rewrite Hspelled. }
  assert (symbol ∈ unusedSymbols sourceFile) as Hunused.
  { apply unusedSymbols_elem. split; [|done]. by apply list_elem_of_lookup_2 with k. }
  split; [done|]. split; [done|].
  destruct (unused_symbol_entry _ _ Hunused) as (unusedNodes & Hentry & Hnode & Hedit & _).
  exists unusedNodes. split; [done|]. split; [done|].
  split; [by rewrite <- createEdit_spec|]. split.
  - intros e He. rewrite <- createEdit_spec in He. unfold analyzeFile.
    apply list_elem_of_omap. by exists (parent symbol, unusedNodes).
  - apply list_elem_of_lookup_2, importedSymbols_elem in Hk
      as (index & d & clause & _ & Hclause & _ & Hparent & Hdecl & Hslot).
    rewrite Hparent. by apply unused_node_left_out with clause.
Qed.

Lemma unused_when_spelled_only_in_imports_witness :
  importedSymbols Inputs.otherImport !! 0 = Some Inputs.symbolA ∧
  spelledOutsideImports Inputs.otherImport "a" = false ∧
  analyzeFile Inputs.otherImport = [vscode.TextEdit_delete (wholeLines 0 1)] ∧
  ((name Inputs.symbolA ∉ allIdentifiers Inputs.otherImport) ∧
   Inputs.symbolA ∈ unusedSymbols Inputs.otherImport ∧
   ∃ unusedNodes,
     (parent Inputs.symbolA, unusedNodes) ∈ unusedImportsByDeclaration Inputs.otherImport ∧
     node Inputs.symbolA ∈ unusedNodes ∧
     editOfStatement Inputs.otherImport
       (fst (parent Inputs.symbolA), ImportDeclarationNode (snd (parent Inputs.symbolA)))
     = editOfEntry Inputs.otherImport (parent Inputs.symbolA) unusedNodes ∧
     (∀ e, editOfEntry Inputs.otherImport (parent Inputs.symbolA) unusedNodes = Some e →
           e ∈ analyzeFile Inputs.otherImport) ∧
     0 ∉ (survivingSpecifiers (parent Inputs.symbolA) unusedNodes).*1).
Proof.
  split; [reflexivity|]. split; [reflexivity|]. split; [vm_compute; reflexivity|].
  apply (unused_when_spelled_only_in_imports Inputs.otherImport 0); reflexivity.
Defined.

(** C7, as stated, fails for export declarations: the name in the specifier
    list of [export { a } from './m'] is an identifier node outside the
    import declarations, so [a] is recorded as used and its import stays. *)
Lemma reexported_name_counts_as_used :
  treeMatchesText Inputs.reExported = true ∧
  "a" ∈ allIdentifiers Inputs.reExported ∧
  unusedSymbols Inputs.reExported = [] ∧
  analyzeFile Inputs.reExported = [].
Proof.
  split; [vm_compute; reflexivity|]. split; [|split; vm_compute; reflexivity].
  apply allIdentifiers_spec. reflexivity.
Qed.

(** ** Syntax errors *)

(** The parser is tolerant: for a text with a syntax error it returns a
    tree and records a diagnostic, and the analysis returns the edits
    computed from that tree. *)
Lemma edits_despite_syntax_error :
  treeMatchesText Inputs.strayBrace = true ∧
  parseDiagnostics Inputs.strayBrace = [mkDiagnostic 25 1128] ∧
  analyzeFile Inputs.strayBrace = [vscode.TextEdit_delete (wholeLines 0 1)] ∧
  analyzeFile Inputs.strayBrace ≠ [].
Proof. repeat split; try (vm_compute; reflexivity). vm_compute. discriminate. Qed.

(** ** A default binding next to a namespace binding *)

(** C1.  A used binding is deleted with its statement when the statement
    has a default and a namespace binding and the other one is unused.  In
    the first file [D] is used and [N] is not; in the second [N] is used and
    [D] is not; either way the whole statement goes. *)
Theorem used_binding_deleted_beside_namespace :
  (treeMatchesText Inputs.usedDefault = true ∧
   "D" ∈ allIdentifiers Inputs.usedDefault ∧
   name <$> unusedSymbols Inputs.usedDefault = ["N"] ∧
   getRange Inputs.usedDefault (mkTextRange 0 28) = onLine 0 0 28 ∧
   analyzeFile Inputs.usedDefault = [vscode.TextEdit_delete (wholeLines 0 1)] ∧
   Host.applyEdits (text Inputs.usedDefault) (analyzeFile Inputs.usedDefault) = Some "D();") ∧
  (treeMatchesText Inputs.usedNamespace = true ∧
   "N" ∈ allIdentifiers Inputs.usedNamespace ∧
   name <$> unusedSymbols Inputs.usedNamespace = ["D"] ∧
   getRange Inputs.usedNamespace (mkTextRange 0 28) = onLine 0 0 28 ∧
   analyzeFile Inputs.usedNamespace = [vscode.TextEdit_delete (wholeLines 0 1)] ∧
   Host.applyEdits (text Inputs.usedNamespace) (analyzeFile Inputs.usedNamespace)
   = Some "N.f();").
Proof.
  split; (split; [vm_compute; reflexivity|]); (split; [by apply allIdentifiers_spec|]);
    repeat split; vm_compute; reflexivity.
Qed.

(** C3.  The kept list of the statement is not empty, its removed list is
    not empty, and yet the edit is the deletion of its whole line. *)
Theorem deletion_with_kept_binding :
  treeMatchesText Inputs.usedNamespace = true ∧
  name <$> importedSymbols Inputs.usedNamespace = ["D"; "N"] ∧
  name <$> keptSymbols Inputs.usedNamespace = ["N"] ∧
  name <$> unusedSymbols Inputs.usedNamespace = ["D"] ∧
  analyzeFile Inputs.usedNamespace = [vscode.TextEdit_delete (wholeLines 0 1)] ∧
  isDeletion (vscode.TextEdit_delete (wholeLines 0 1)) = true.
Proof. repeat split; vm_compute; reflexivity. Qed.

(** C10.  The name [N] is spelled outside the import declarations, by the
    declaration of a parameter, and is therefore in the set; the edit
    nevertheless deletes the statement that binds [N], because the default
    binding beside it is unused. *)
Theorem declared_name_deleted_beside_default :
  treeMatchesText Inputs.declaredNamespaceName = true ∧
  spelledOutsideImports Inputs.declaredNamespaceName "N" = true ∧
  "N" ∈ allIdentifiers Inputs.declaredNamespaceName ∧
  name <$> unusedSymbols Inputs.declaredNamespaceName = ["D"] ∧
  analyzeFile Inputs.declaredNamespaceName = [vscode.TextEdit_delete (wholeLines 0 1)] ∧
  Host.applyEdits (text Inputs.declaredNamespaceName)
                  (analyzeFile Inputs.declaredNamespaceName)
  = Some "function f(N) {}".
Proof.
  split; [vm_compute; reflexivity|]. split; [reflexivity|].
  split; [by apply allIdentifiers_spec|]. repeat split; vm_compute; reflexivity.
Qed.

(** ** Object keys and type-only imports *)

(** C2.  The key of a plain property assignment is an identifier node, so
    [Name] is recorded as used and the analysis returns no edit: the text
    stays as it is. *)
Theorem plain_key_keeps_import :
  treeMatchesText Inputs.plainKey = true ∧
  "Name" ∈ allIdentifiers Inputs.plainKey ∧
  unusedSymbols Inputs.plainKey = [] ∧
  analyzeFile Inputs.plainKey = [] ∧
  Host.applyEdits (text Inputs.plainKey) (analyzeFile Inputs.plainKey)
  = Some (text Inputs.plainKey).
Proof.
  split; [vm_compute; reflexivity|]. split; [by apply allIdentifiers_spec|].
  repeat split; vm_compute; reflexivity.
Qed.

(** C4.  The rebuilt statement starts with [import] and goes on with the
    specifier list: the [type] keyword of the statement is not printed. *)
Theorem type_keyword_dropped :
  treeMatchesText Inputs.typeOnly = true ∧
  analyzeFile Inputs.typeOnly
  = [vscode.TextEdit_replace (onLine 0 0 40) "import { Used } from './t';"] ∧
  Host.applyEdits (text Inputs.typeOnly) (analyzeFile Inputs.typeOnly)
  = Some ("import { Used } from './t';" +:+ Inputs.nl +:+ "let x: Used;").
Proof. repeat split; vm_compute; reflexivity. Qed.

(** ** Used bindings of a statement without a namespace binding

    The deletions above concern statements that bind a namespace.  In every
    other statement a used binding stays: it is not among the unused nodes,
    a used default name is printed, a used element is among the used
    specifiers, and the edit of the statement, if there is one, is not a
    deletion. *)

Lemma symbolsOfClause_node_inj index declaration clause s s' :
  s ∈ symbolsOfClause index declaration clause →
  s' ∈ symbolsOfClause index declaration clause →
  node s = node s' → s = s'.
Proof.
  unfold symbolsOfClause. rewrite !elem_of_app. intros Hs Hs' Hnode.
  assert (∀ x, x ∈ match clause_namedBindings clause with
                   | Some (NamedImports _ elems) =>
                       imap (λ i element,
                               mkImportedSymbol (id_text (spec_name element))
                                 (mkNodeRef index (SlotElement i)) (index, declaration)) elems
                   | Some (NamespaceImport _ n) =>
                       [mkImportedSymbol (id_text n) (mkNodeRef index SlotNamespaceName)
                                         (index, declaration)]
                   | None => []
                   end → ref_slot (node x) ≠ SlotClauseName) as Hbindings.
  { intros x Hx. destruct (clause_namedBindings clause) as [[r elems|r n]|].
    - by apply elem_of_lookup_imap in Hx as (i & e & -> & _).
    - by apply list_elem_of_singleton in Hx as ->.
    - by apply elem_of_nil in Hx. }
  assert (∀ x, x ∈ match clause_name clause with
                   | Some n => [mkImportedSymbol (id_text n) (mkNodeRef index SlotClauseName)
                                                 (index, declaration)]
                   | None => []
                   end → ref_slot (node x) = SlotClauseName) as Hname.
  { intros x Hx. destruct (clause_name clause); [|by apply elem_of_nil in Hx].
    by apply list_elem_of_singleton in Hx as ->. }
  destruct Hs as [Hs|Hs], Hs' as [Hs'|Hs'].
  - destruct (clause_name clause); [|by apply elem_of_nil in Hs].
    apply list_elem_of_singleton in Hs as ->. by apply list_elem_of_singleton in Hs' as ->.
  - apply Hname in Hs. apply Hbindings in Hs'. congruence.
  - apply Hname in Hs'. apply Hbindings in Hs. congruence.
  - destruct (clause_namedBindings clause) as [[r elems|r n]|].
    + apply elem_of_lookup_imap in Hs as (i & e & -> & Hi).
      apply elem_of_lookup_imap in Hs' as (i' & e' & -> & Hi').
      simpl in Hnode. injection Hnode as <-. congruence.
    + apply list_elem_of_singleton in Hs as ->. by apply list_elem_of_singleton in Hs' as ->.
    + by apply elem_of_nil in Hs.
Qed.

Lemma used_node_not_unused sourceFile index n symbol :
  symbol ∈ symbolsOfChild index n →
  name symbol ∈ allIdentifiers sourceFile →
  node symbol ∉ unusedNodesOf sourceFile index n.
Proof.
  intros Hs Hused (s' & Hnode & Hs')%list_elem_of_fmap.
  apply list_elem_of_In, filter_In in Hs' as [Hs' Hunused].
  apply list_elem_of_In in Hs'. apply negb_true_iff, bool_decide_eq_false in Hunused.
  destruct n as [i|d|k r cs]; simpl in Hs, Hs'; try by apply elem_of_nil in Hs.
  destruct (importClause d) as [clause|]; [|by apply elem_of_nil in Hs].
  by rewrite (symbolsOfClause_node_inj _ _ _ _ _ Hs Hs' Hnode) in Hused.
Qed.

Lemma entry_of_declaration sourceFile index declaration unusedNodes :
  ((index, declaration), unusedNodes) ∈ unusedImportsByDeclaration sourceFile →
  forEachChild_SourceFile sourceFile !! index = Some (ImportDeclarationNode declaration) ∧
  unusedNodes = unusedNodesOf sourceFile index (ImportDeclarationNode declaration).
Proof.
  rewrite unusedImportsByDeclaration_by_statement.
  intros ([j n] & Hj & Hentry)%list_elem_of_omap.
  apply elem_of_lookup_imap in Hj as (j' & n' & [= <- <-] & Hj).
  unfold entryOfStatement in Hentry. simpl in Hentry.
  destruct n as [i|d|k r cs]; [done| |done].
  destruct (unusedNodesOf sourceFile j (ImportDeclarationNode d)) eqn:Hu; [done|].
  injection Hentry as <- <- <-. by rewrite Hu.
Qed.

Lemma used_binding_kept sourceFile symbol unusedNodes :
  symbol ∈ importedSymbols sourceFile →
  name symbol ∈ allIdentifiers sourceFile →
  hasNamespaceImport (snd (parent symbol)) = false →
  printsDefault sourceFile (snd (parent symbol)) = true →
  (parent symbol, unusedNodes) ∈ unusedImportsByDeclaration sourceFile →
  (node symbol ∉ unusedNodes) ∧
  match ref_slot (node symbol) with
  | SlotClauseName => truthy (defaultImportName sourceFile (parent symbol) unusedNodes) = true
  | SlotElement i =>
      ∃ kept, usedSpecifiers (parent symbol) unusedNodes = Some kept ∧ i ∈ kept.*1
  | SlotNamespaceName => False
  end ∧
  ∀ e, createEdit sourceFile (parent symbol) unusedNodes = Some e →
       e = vscode.TextEdit_replace (getRange sourceFile (decl_range (snd (parent symbol))))
                                   (newImport sourceFile (parent symbol) unusedNodes).
Proof.
  intros Hs Hused Hns Hprints Hentry.
  apply importedSymbols_elem in Hs
    as (index & d & clause & Hindex & Hclause & Hs & Hparent & Hdecl & Hslot).
  rewrite Hparent in *. simpl in Hns, Hprints.
  apply entry_of_declaration in Hentry as [_ ->].
  pose proof (used_node_not_unused _ _ _ _ Hs Hused) as Hnot.
  set (unusedNodes := unusedNodesOf sourceFile index (ImportDeclarationNode d)) in *.
  destruct (node symbol) as [index' slot] eqn:Hnode. simpl in Hdecl, Hslot. subst index'.
  assert (∀ f : NodeRef → bool,
            (∀ n, f n = true → n = mkNodeRef index slot) → existsb f unusedNodes = false)
    as Hnone.
  { intros f Hf. apply not_true_is_false. intros (n & Hn & Hfn)%existsb_exists.
    apply Hf in Hfn as ->. by apply Hnot, list_elem_of_In. }
  assert (match slot with
          | SlotClauseName =>
              truthy (defaultImportName sourceFile (index, d) unusedNodes) = true
          | SlotElement i =>
              ∃ kept, usedSpecifiers (index, d) unusedNodes = Some kept ∧ i ∈ kept.*1
          | SlotNamespaceName => False
          end) as Hkept.
  { unfold hasNamespaceImport in Hns. rewrite Hclause in Hns. simpl in Hns.
    destruct slot as [|i|]; simpl in Hslot.
    - destruct Hslot as [x Hx].
      unfold defaultImportName, isDefaultImportUsed, isDefaultImportUnused. simpl.
      unfold printsDefault in Hprints. rewrite Hclause in Hprints |- *. simpl in *.
      rewrite Hx in Hprints |- *. rewrite Hnone; [done|].
      intros n [_ Hn%bool_decide_eq_true]%andb_true_iff. done.
    - destruct Hslot as (r & elems & Hb & [e He]).
      unfold usedSpecifiers. simpl. rewrite Hclause. simpl. rewrite Hb.
      eexists. split; [done|]. apply list_elem_of_fmap. exists (i, e). split; [done|].
      apply list_elem_of_In, filter_In. split.
      + by apply list_elem_of_In, (elem_of_lookup_imap_2 pair).
      + simpl. apply negb_true_iff, Hnone. by intros n ->%bool_decide_eq_true.
    - destruct Hslot as (r & x & Hb). by rewrite Hb in Hns. }
  split; [done|]. split; [done|].
  intros e. unfold createEdit.
  assert (isNamespaceImport (index, d) = false) as -> by exact Hns.
  cbn [andb].
  assert (negb (truthy (defaultImportName sourceFile (index, d) unusedNodes))
          && negb (hasUsedSpecifiers (index, d) unusedNodes) = false) as ->.
  { destruct slot as [|i|]; [|destruct Hkept as (kept & Hk & Hi)|done].
    - by rewrite Hkept.
    - unfold hasUsedSpecifiers. rewrite Hk.
      destruct kept; [by apply elem_of_nil in Hi|]. by rewrite andb_false_r. }
  destruct (negb _); [|done]. by intros [= <-].
Qed.

(** ** The passes of the analysis, one by one *)

(** X1.  The first pass records a name exactly when an identifier node
    outside the import declarations spells it. *)
Theorem first_pass_records_spelled_identifiers sourceFile x :
  x ∈ allIdentifiers sourceFile ↔ spelledOutsideImports sourceFile x = true.
Proof. apply allIdentifiers_spec. Qed.

Lemma node_of_symbolsOfChild index n s :
  s ∈ symbolsOfChild index n → ref_decl (node s) = index.
Proof.
  intros Hs. pose proof (symbolsOfChild_parent index n) as Hp.
  rewrite Forall_forall in Hp. by destruct (Hp _ Hs) as (d & _ & _ & ?).
Qed.

Lemma NoDup_nodes_of_clause index declaration clause :
  NoDup (node <$> symbolsOfClause index declaration clause).
Proof.
  unfold symbolsOfClause. rewrite fmap_app. apply NoDup_app. split; [|split].
  - destruct (clause_name clause); [apply NoDup_singleton|apply NoDup_nil_2].
  - intros x Hx Hx'.
    assert (ref_slot x = SlotClauseName) as Hslot.
    { destruct (clause_name clause); [|by apply elem_of_nil in Hx].
      by apply list_elem_of_singleton in Hx as ->. }
    destruct (clause_namedBindings clause) as [[r elems|r n]|].
    + apply list_elem_of_fmap in Hx' as (s & -> & Hs).
      by apply elem_of_lookup_imap in Hs as (i & e & -> & _).
    + apply list_elem_of_singleton in Hx' as ->. done.
    + by apply elem_of_nil in Hx'.
  - destruct (clause_namedBindings clause) as [[r elems|r n]|];
      [|apply NoDup_singleton|apply NoDup_nil_2].
    apply NoDup_alt. intros i j x Hi Hj.
    rewrite list_lookup_fmap, list_lookup_imap in Hi, Hj.
    destruct (elems !! i); [|done]. destruct (elems !! j); [|done].
    simpl in Hi, Hj. congruence.
Qed.

Lemma NoDup_nodes_from (l : list Node) index :
  NoDup (node <$> mjoin (imap (λ i, symbolsOfChild (index + i)) l)) ∧
  ∀ x, x ∈ node <$> mjoin (imap (λ i, symbolsOfChild (index + i)) l) → index ≤ ref_decl x.
Proof.
  revert index. induction l as [|n l IH]; intros index.
  - split; [apply NoDup_nil_2|]. intros x Hx. by apply elem_of_nil in Hx.
  - rewrite imap_cons. cbn [mjoin list_join]. rewrite fmap_app, Nat.add_0_r.
    rewrite (imap_ext _ (λ i, symbolsOfChild (S index + i))); last first.
    { intros i x _. simpl. f_equal. lia. }
    destruct (IH (S index)) as [IHnodup IHge].
    assert (∀ x, x ∈ node <$> symbolsOfChild index n → ref_decl x = index) as Hhere.
    { intros x (s & -> & Hs)%list_elem_of_fmap. by apply node_of_symbolsOfChild with n. }
    split.
    + apply NoDup_app. split; [|split; [|done]].
      * destruct n as [i|d|k r cs]; simpl; try apply NoDup_nil_2.
        destruct (importClause d); [apply NoDup_nodes_of_clause|apply NoDup_nil_2].
      * intros x Hx Hx'. apply Hhere in Hx. apply IHge in Hx'. lia.
    + intros x [Hx|Hx]%elem_of_app; [apply Hhere in Hx; lia|apply IHge in Hx; lia].
Qed.

Lemma symbolsOfClause_elem index declaration clause s :
  s ∈ symbolsOfClause index declaration clause
  ↔ parent s = (index, declaration) ∧ ref_decl (node s) = index ∧
    nameInSlot clause (ref_slot (node s)) = Some (name s).
Proof.
  unfold symbolsOfClause. rewrite elem_of_app. split.
  - intros [Hs|Hs].
    + destruct (clause_name clause) as [x|] eqn:Hx; [|by apply elem_of_nil in Hs].
      apply list_elem_of_singleton in Hs as ->. simpl. by rewrite Hx.
    + destruct (clause_namedBindings clause) as [[r elems|r x]|] eqn:Hb;
        [| |by apply elem_of_nil in Hs].
      * apply elem_of_lookup_imap in Hs as (i & e & -> & Hi). simpl. by rewrite Hb, Hi.
      * apply list_elem_of_singleton in Hs as ->. simpl. by rewrite Hb.
  - destruct s as [nm [index' slot] par]. simpl. intros (-> & -> & Hname).
    destruct slot as [|i|]; simpl in Hname.
    + left. destruct (clause_name clause) as [x|]; [|done].
      injection Hname as <-. apply list_elem_of_here.
    + right. destruct (clause_namedBindings clause) as [[r elems|r x]|]; [|done..].
      destruct (elems !! i) as [e|] eqn:Hi; [|done]. injection Hname as <-.
      by apply (elem_of_lookup_imap_2
                  (λ i element, mkImportedSymbol (id_text (spec_name element))
                                  (mkNodeRef index (SlotElement i)) (index, declaration)))
        in Hi.
    + right. destruct (clause_namedBindings clause) as [[r elems|r x]|]; [done| |done].
      injection Hname as <-. apply list_elem_of_here.
Qed.

(** X3.  The second pass collects every binding, once: the imported symbols
    are exactly the filled slots (default name, element, namespace name) of
    the top-level import declarations that have an import clause, each under
    its local name and with its declaration as parent; and no two symbols
    are the same node, so that the identity tests of the edit loop tell any
    two bindings apart. *)
Theorem second_pass_collects_each_binding_once sourceFile :
  NoDup (node <$> importedSymbols sourceFile) ∧
  ∀ symbol,
    symbol ∈ importedSymbols sourceFile
    ↔ ∃ clause,
        forEachChild_SourceFile sourceFile !! fst (parent symbol)
        = Some (ImportDeclarationNode (snd (parent symbol))) ∧
        importClause (snd (parent symbol)) = Some clause ∧
        ref_decl (node symbol) = fst (parent symbol) ∧
        nameInSlot clause (ref_slot (node symbol)) = Some (name symbol).
Proof.
  split.
  - exact (proj1 (NoDup_nodes_from (forEachChild_SourceFile sourceFile) 0)).
  - intros symbol. split.
    + intros Hs.
      destruct (importedSymbols_elem _ _ Hs)
        as (index & d & clause & Hindex & Hclause & Hin & Hparent & Hdecl & _).
      simpl in Hin. rewrite Hclause in Hin.
      apply symbolsOfClause_elem in Hin as (_ & _ & Hname).
      exists clause. by rewrite Hparent.
    + intros (clause & Hindex & Hclause & Hdecl & Hname).
      unfold importedSymbols. apply list_elem_of_join.
      exists (symbolsOfChild (fst (parent symbol))
                (ImportDeclarationNode (snd (parent symbol)))).
      split.
      * simpl. rewrite Hclause. apply symbolsOfClause_elem.
        split; [by destruct (parent symbol)|done].
      * by apply (elem_of_lookup_imap_2 symbolsOfChild) in Hindex.
Qed.

(** X2.  The map has one entry for every import declaration with at least
    one unused symbol and for nothing else; the entries come in source
    order, and an entry holds the unused nodes of its declaration, in source
    order. *)
Theorem map_groups_unused_nodes_by_declaration sourceFile :
  unusedImportsByDeclaration sourceFile
  = omap (entryOfStatement sourceFile) (imap pair (forEachChild_SourceFile sourceFile)) ∧
  (∀ a b ea eb,
     a < b →
     unusedImportsByDeclaration sourceFile !! a = Some ea →
     unusedImportsByDeclaration sourceFile !! b = Some eb →
     fst (fst ea) < fst (fst eb)) ∧
  (∀ index declaration unusedNodes,
     ((index, declaration), unusedNodes) ∈ unusedImportsByDeclaration sourceFile →
     forEachChild_SourceFile sourceFile !! index = Some (ImportDeclarationNode declaration) ∧
     unusedNodes ≠ [] ∧
     unusedNodes
     = node <$> List.filter (unusedIn sourceFile)
                            (symbolsOfChild index (ImportDeclarationNode declaration))).
Proof.
  split; [apply unusedImportsByDeclaration_by_statement|]. split.
  - rewrite unusedImportsByDeclaration_by_statement. intros a b ea eb Hab Ha Hb.
    destruct (omap_lookup_lt _ _ _ _ _ _ Hab Ha Hb)
      as (i & j & [i' ni] & [j' nj] & Hij & Hi & Hj & Hfi & Hfj).
    apply list_lookup_imap_Some in Hi as (? & _ & [= -> ->]).
    apply list_lookup_imap_Some in Hj as (? & _ & [= -> ->]).
    apply entryOfStatement_key in Hfi, Hfj. simpl in Hfi, Hfj.
    unfold DeclMap, DeclRef in *. lia.
  - intros index d unusedNodes Hentry.
    pose proof (entry_of_declaration _ _ _ _ Hentry) as [Hindex ->].
    split; [done|]. split; [|done].
    rewrite unusedImportsByDeclaration_by_statement in Hentry.
    apply list_elem_of_omap in Hentry as ([j n] & _ & Hj).
    unfold entryOfStatement in Hj. simpl in Hj. destruct n; [done| |done].
    destruct (unusedNodesOf sourceFile j _) eqn:Hu; [done|].
    injection Hj as <- <- Hj. by rewrite <- Hj.
Qed.

(** ** The edit of one statement *)

Lemma used_binding_survives sourceFile symbol unusedNodes :
  symbol ∈ importedSymbols sourceFile →
  name symbol ∈ allIdentifiers sourceFile →
  hasNamespaceImport (snd (parent symbol)) = false →
  printsDefault sourceFile (snd (parent symbol)) = true →
  (parent symbol, unusedNodes) ∈ unusedImportsByDeclaration sourceFile →
  (node symbol ∉ unusedNodes) ∧
  match ref_slot (node symbol) with
  | SlotClauseName =>
      ∃ n, importClause (snd (parent symbol)) ≫= clause_name = Some n ∧
           name symbol = id_text n ∧
           survivingDefault sourceFile (parent symbol) unusedNodes
           = Some (getText sourceFile (id_range n))
  | SlotElement i =>
      ∃ r elems e,
        importClause (snd (parent symbol)) ≫= clause_namedBindings
        = Some (NamedImports r elems) ∧
        elems !! i = Some e ∧
        name symbol = id_text (spec_name e) ∧
        (i, e) ∈ survivingSpecifiers (parent symbol) unusedNodes
  | SlotNamespaceName => False
  end ∧
  goesWhole sourceFile (parent symbol) unusedNodes = false.
Proof.
  intros Hs Hused Hns Hprints Hentry.
  apply importedSymbols_elem in Hs
    as (index & d & clause & Hindex & Hclause & Hs & Hparent & Hdecl & Hslot).
  rewrite Hparent in *. simpl in Hns, Hprints.
  apply entry_of_declaration in Hentry as [_ ->].
  pose proof (used_node_not_unused _ _ _ _ Hs Hused) as Hnot.
  set (unusedNodes := unusedNodesOf sourceFile index (ImportDeclarationNode d)) in *.
  simpl in Hs. rewrite Hclause in Hs. unfold symbolsOfClause in Hs.
  unfold hasNamespaceImport in Hns. unfold printsDefault in Hprints.
  unfold goesWhole, hasNamespaceImport, survivingDefault, survivingSpecifiers.
  simpl. rewrite Hclause in Hns, Hprints |- *. simpl in Hns, Hprints |- *.
  split; [done|].
  apply elem_of_app in Hs as [Hs|Hs].
  - destruct (clause_name clause) as [x|]; [|by apply elem_of_nil in Hs].
    apply list_elem_of_singleton in Hs as ->. simpl in *.
    rewrite (bool_decide_eq_false_2 _ Hnot).
    apply negb_true_iff in Hprints. rewrite Hprints.
    split; [by exists x|]. by destruct (clause_namedBindings clause) as [[]|].
  - destruct (clause_namedBindings clause) as [[r elems|r x]|];
      [|done|by apply elem_of_nil in Hs].
    apply elem_of_lookup_imap in Hs as (i & e & -> & Hi). simpl in *.
    assert ((i, e) ∈ List.filter
                       (λ element : nat * ImportSpecifier,
                          bool_decide (mkNodeRef index (SlotElement (fst element))
                                       ∉ unusedNodes))
                       (imap pair elems)) as Hin.
    { apply list_elem_of_In, filter_In. split.
      - by apply list_elem_of_In, (elem_of_lookup_imap_2 pair).
      - by apply bool_decide_eq_true_2. }
    split; [by exists r, elems, e|].
    destruct (List.filter _ _); [by apply elem_of_nil in Hin|].
    by repeat case_match.
Qed.



Lemma filter_all {A} (f : A → bool) (l : list A) :
  forallb f l = true → List.filter f l = l.
Proof.
  induction l as [|x l IH]; simpl; [done|].
  intros [-> Hl]%andb_true_iff. by rewrite IH.
Qed.

Lemma filter_none {A} (f : A → bool) (l : list A) :
  (∀ x, x ∈ l → f x = false) → List.filter f l = [].
Proof.
  induction l as [|x l IH]; simpl; [done|]. intros H.
  rewrite (H x) by apply list_elem_of_here. apply IH. intros y Hy. apply H.
  by apply list_elem_of_further.
Qed.

(** X5.  An import declaration none of whose symbols is used, and that has
    at least one, is deleted with the whole of its lines. *)
Theorem wholly_unused_statement_is_deleted sourceFile index d :
  forEachChild_SourceFile sourceFile !! index = Some (ImportDeclarationNode d) →
  0 < length (symbolsOfChild index (ImportDeclarationNode d)) →
  forallb (unusedIn sourceFile) (symbolsOfChild index (ImportDeclarationNode d)) = true →
  editOfStatement sourceFile (index, ImportDeclarationNode d)
  = Some (vscode.TextEdit_delete (deletionRange sourceFile d)) ∧
  vscode.TextEdit_delete (deletionRange sourceFile d) ∈ analyzeFile sourceFile.
Proof.
  intros Hindex Hsome Hall.
  assert (editOfStatement sourceFile (index, ImportDeclarationNode d)
          = Some (vscode.TextEdit_delete (deletionRange sourceFile d))) as Hedit.
  { unfold editOfStatement, entryOfStatement, unusedNodesOf. cbn [fst snd].
    fold (unusedIn sourceFile). rewrite (filter_all _ _ Hall).
    set (unusedNodes := node <$> symbolsOfChild index (ImportDeclarationNode d)).
    assert (∀ s, s ∈ symbolsOfChild index (ImportDeclarationNode d) → node s ∈ unusedNodes)
      as Hin by (intros s Hs; by apply list_elem_of_fmap_2).
    destruct unusedNodes as [|u us] eqn:Hu.
    { unfold unusedNodes in Hu. apply fmap_nil_inv in Hu. rewrite Hu in Hsome.
      simpl in Hsome. lia. }
    rewrite <- Hu in *. clear Hu. simpl in Hsome, Hin |- *.
    destruct (importClause d) as [clause|] eqn:Hclause; [|simpl in Hsome; lia].
    unfold symbolsOfClause in Hin.
    assert (defaultImportName sourceFile (index, d) unusedNodes = None) as Hdefault.
    { unfold defaultImportName, isDefaultImportUsed, isDefaultImportUnused. simpl.
      rewrite Hclause. simpl. destruct (clause_name clause) as [x|]; [|done].
      rewrite (existsb_elem _ unusedNodes (mkNodeRef index SlotClauseName)); [done| |].
      - apply (Hin (mkImportedSymbol (id_text x) (mkNodeRef index SlotClauseName) (index, d))).
        apply elem_of_app. left. apply list_elem_of_here.
      - simpl. by apply bool_decide_eq_true_2. }
    unfold createEdit. rewrite Hdefault.
    unfold isNamespaceImportUsed, isNamespaceImport, hasUsedSpecifiers, usedSpecifiers.
    simpl. rewrite Hclause. simpl.
    destruct (clause_namedBindings clause) as [[r elems|r n]|]; simpl; [|..|done].
    - rewrite filter_none; [done|]. intros [i e] (i' & e' & [= <- <-] & Hi)%elem_of_lookup_imap.
      simpl. apply negb_false_iff.
      apply (existsb_elem _ unusedNodes (mkNodeRef index (SlotElement i)));
        [|by apply bool_decide_eq_true_2].
      apply (Hin (mkImportedSymbol (id_text (spec_name e)) (mkNodeRef index (SlotElement i))
                                   (index, d))).
      apply elem_of_app. right.
      by apply (elem_of_lookup_imap_2
                  (λ i element, mkImportedSymbol (id_text (spec_name element))
                                  (mkNodeRef index (SlotElement i)) (index, d))) in Hi.
    - rewrite (existsb_elem _ unusedNodes (mkNodeRef index SlotNamespaceName)); [done| |].
      + apply (Hin (mkImportedSymbol (id_text n) (mkNodeRef index SlotNamespaceName) (index, d))).
        apply elem_of_app. right. apply list_elem_of_here.
      + simpl. by apply bool_decide_eq_true_2. }
  split; [done|]. rewrite analyzeFile_by_statement. apply list_elem_of_omap.
  exists (index, ImportDeclarationNode d). split; [|done].
  by apply (elem_of_lookup_imap_2 pair) in Hindex.
Qed.

Lemma wholly_unused_statement_is_deleted_witness :
  forEachChild_SourceFile Inputs.multiLineUnused !! 0
  = Some (ImportDeclarationNode Cases.multiLineDeclaration) ∧
  deletionRange Inputs.multiLineUnused Cases.multiLineDeclaration = wholeLines 0 4 ∧
  editOfStatement Inputs.multiLineUnused (0, ImportDeclarationNode Cases.multiLineDeclaration)
  = Some (vscode.TextEdit_delete
            (deletionRange Inputs.multiLineUnused Cases.multiLineDeclaration)) ∧
  vscode.TextEdit_delete (deletionRange Inputs.multiLineUnused Cases.multiLineDeclaration)
  ∈ analyzeFile Inputs.multiLineUnused.
Proof.
  split; [reflexivity|]. split; [vm_compute; reflexivity|].
  apply (wholly_unused_statement_is_deleted Inputs.multiLineUnused 0);
    [reflexivity|simpl; lia|vm_compute; reflexivity].
Defined.

(** X6.  A child of the source file all of whose symbols are used gives
    rise to no map entry and to no edit, whatever becomes of the other
    statements; so does a child that binds nothing. *)
Theorem fully_used_statement_has_no_edit sourceFile index n :
  forEachChild_SourceFile sourceFile !! index = Some n →
  forallb (λ symbol, negb (unusedIn sourceFile symbol)) (symbolsOfChild index n) = true →
  editOfStatement sourceFile (index, n) = None ∧
  ∀ declaration unusedNodes,
    ((index, declaration), unusedNodes) ∉ unusedImportsByDeclaration sourceFile.
Proof.
  intros Hindex Hused.
  assert (unusedNodesOf sourceFile index n = []) as Hnone.
  { unfold unusedNodesOf. fold (unusedIn sourceFile). rewrite filter_none; [done|].
    intros s Hs. rewrite forallb_forall in Hused.
    by apply negb_true_iff, Hused, list_elem_of_In. }
  assert (entryOfStatement sourceFile (index, n) = None) as Hentry.
  { unfold entryOfStatement. simpl. rewrite Hnone. by destruct n. }
  split; [unfold editOfStatement; by rewrite Hentry|].
  intros declaration unusedNodes Hin.
  rewrite unusedImportsByDeclaration_by_statement in Hin.
  apply list_elem_of_omap in Hin as ([j m] & Hj & Hm).
  apply elem_of_lookup_imap in Hj as (j' & m' & [= <- <-] & Hj).
  pose proof (entryOfStatement_key _ _ _ Hm) as Hkey. simpl in Hkey. subst j.
  rewrite Hindex in Hj. injection Hj as <-. by rewrite Hentry in Hm.
Qed.

Lemma fully_used_statement_has_no_edit_witness :
  forEachChild_SourceFile Inputs.shorthand !! 0
  = Some (Inputs.importNode 0 27
            (Inputs.namedImportsClause false None 7 15 [Inputs.plainSpecifier 9 13 "Name"])
            21 26) ∧
  (editOfStatement Inputs.shorthand
     (0, Inputs.importNode 0 27
           (Inputs.namedImportsClause false None 7 15 [Inputs.plainSpecifier 9 13 "Name"])
           21 26)
   = None ∧
   ∀ declaration unusedNodes,
     ((0, declaration), unusedNodes) ∉ unusedImportsByDeclaration Inputs.shorthand).
Proof.
  split; [reflexivity|].
  apply (fully_used_statement_has_no_edit Inputs.shorthand 0); [reflexivity|].
  vm_compute. reflexivity.
Defined.

Lemma filter_sublist {A} (f : A → bool) (l : list A) : List.filter f l `sublist_of` l.
Proof.
  induction l as [|x l IH]; simpl; [done|].
  destruct (f x); [by apply sublist_skip|by apply sublist_cons].
Qed.

Lemma snd_imap_pair {A} (l : list A) k : (imap (λ i x, (k + i, x)) l).*2 = l.
Proof.
  revert k. induction l as [|x l IH]; intros k; [done|].
  rewrite imap_cons. simpl. f_equal.
  rewrite (imap_ext _ (λ i x, (S k + i, x))); [apply IH|].
  intros i y _. simpl. f_equal. lia.
Qed.

(** X7.  The used specifiers of a declaration with a named-imports list are
    the elements that are not among the unused nodes, in the order of the
    list: reducing an import never reorders what survives. *)
Theorem surviving_specifiers_keep_their_order declaration unusedNodes clause r elems :
  importClause (snd declaration) = Some clause →
  clause_namedBindings clause = Some (NamedImports r elems) →
  ∃ kept,
    usedSpecifiers declaration unusedNodes = Some kept ∧
    kept.*2 `sublist_of` elems ∧
    ∀ i e, (i, e) ∈ kept
           ↔ elems !! i = Some e ∧ mkNodeRef (fst declaration) (SlotElement i) ∉ unusedNodes.
Proof.
  intros Hclause Hbindings. unfold usedSpecifiers. rewrite Hclause. simpl.
  rewrite Hbindings. eexists. split; [done|]. split.
  - etransitivity; [apply fmap_sublist, filter_sublist|].
    change (imap pair elems) with (imap (λ i x, (0 + i, x)) elems).
    by rewrite (snd_imap_pair elems 0).
  - intros i e. rewrite list_elem_of_In, filter_In, <- list_elem_of_In. simpl.
    rewrite negb_true_iff. split.
    + intros [(i' & e' & [= <- <-] & Hi)%elem_of_lookup_imap Hnot]. split; [done|].
      intros Hin. rewrite (existsb_elem _ _ _ Hin) in Hnot; [done|].
      by apply bool_decide_eq_true_2.
    + intros [Hi Hnot]. split; [by apply (elem_of_lookup_imap_2 pair)|].
      apply not_true_is_false. intros (x & Hx & ->%bool_decide_eq_true)%existsb_exists.
      by apply Hnot, list_elem_of_In.
Qed.

Lemma surviving_specifiers_keep_their_order_witness :
  ∃ kept,
    usedSpecifiers (0, Cases.scenario3Declaration) Cases.scenario3Unused = Some kept ∧
    kept.*2 `sublist_of` [Inputs.plainSpecifier 14 15 "a"; Inputs.plainSpecifier 17 18 "b"] ∧
    ∀ i e, (i, e) ∈ kept
           ↔ [Inputs.plainSpecifier 14 15 "a"; Inputs.plainSpecifier 17 18 "b"] !! i = Some e ∧
             mkNodeRef (fst (0, Cases.scenario3Declaration)) (SlotElement i)
             ∉ Cases.scenario3Unused.
Proof.
  apply (surviving_specifiers_keep_their_order (0, Cases.scenario3Declaration)
           Cases.scenario3Unused
           (mkImportClause false (Some (Inputs.ident 7 10 "Def"))
              (Some (NamedImports (Inputs.rng 12 20)
                       [Inputs.plainSpecifier 14 15 "a"; Inputs.plainSpecifier 17 18 "b"])))
           (Inputs.rng 12 20)); reflexivity.
Defined.

Lemma createEdit_replacement sourceFile declaration unusedNodes e :
  createEdit sourceFile declaration unusedNodes = Some e →
  isDeletion e = false →
  e = vscode.TextEdit_replace (getRange sourceFile (decl_range (snd declaration)))
                              (newImport sourceFile declaration unusedNodes) ∧
  trim (newImport sourceFile declaration unusedNodes)
  ≠ trim (originalImport sourceFile declaration).
Proof.
  unfold createEdit. intros H Hd.
  destruct (_ && _); [injection H as <-; done|].
  destruct (_ && _); [injection H as <-; done|].
  destruct (negb _) eqn:Hne; [|done]. injection H as <-. split; [done|].
  apply negb_true_iff in Hne. by apply String.eqb_neq.
Qed.

(** X8.  A replacement is emitted only for an actual change: every edit of
    the result that is not a deletion replaces the range of an import
    declaration that has an unused node by the rebuilt statement, and the
    rebuilt statement differs from the text of the declaration even after
    trimming both. *)
Theorem replacement_changes_the_statement sourceFile k e :
  analyzeFile sourceFile !! k = Some e →
  isDeletion e = false →
  ∃ index d unusedNodes,
    forEachChild_SourceFile sourceFile !! index = Some (ImportDeclarationNode d) ∧
    ((index, d), unusedNodes) ∈ unusedImportsByDeclaration sourceFile ∧
    vscode.range e = getRange sourceFile (decl_range d) ∧
    vscode.newText e = newImport sourceFile (index, d) unusedNodes ∧
    trim (vscode.newText e) ≠ trim (getText sourceFile (decl_range d)).
Proof.
  intros Hk Hd. apply list_elem_of_lookup_2 in Hk. unfold analyzeFile in Hk.
  apply list_elem_of_omap in Hk as ([[index d] unusedNodes] & Hentry & He).
  simpl in He. destruct (createEdit_replacement _ _ _ _ He Hd) as [-> Hne].
  exists index, d, unusedNodes. split; [by apply entry_of_declaration in Hentry as [? _]|].
  done.
Qed.

Lemma replacement_changes_the_statement_witness :
  analyzeFile Inputs.scenario3 !! 0
  = Some (vscode.TextEdit_replace (onLine 0 0 32) "import { a } from './m';") ∧
  ∃ index d unusedNodes,
    forEachChild_SourceFile Inputs.scenario3 !! index = Some (ImportDeclarationNode d) ∧
    ((index, d), unusedNodes) ∈ unusedImportsByDeclaration Inputs.scenario3 ∧
    vscode.range (vscode.TextEdit_replace (onLine 0 0 32) "import { a } from './m';")
    = getRange Inputs.scenario3 (decl_range d) ∧
    vscode.newText (vscode.TextEdit_replace (onLine 0 0 32) "import { a } from './m';")
    = newImport Inputs.scenario3 (index, d) unusedNodes ∧
    trim (vscode.newText (vscode.TextEdit_replace (onLine 0 0 32) "import { a } from './m';"))
    ≠ trim (getText Inputs.scenario3 (decl_range d)).
Proof.
  split; [vm_compute; reflexivity|].
  apply (replacement_changes_the_statement Inputs.scenario3 0); vm_compute; reflexivity.
Defined.

(** ** Ranges *)

Lemma isBeforeOrEqual_line a b :
  vscode.isBeforeOrEqual a b = true → vscode.line a ≤ vscode.line b.
Proof. unfold vscode.isBeforeOrEqual. repeat case_decide; try done; lia. Qed.

(** X9.  The range of a deletion is made of whole lines and covers the
    declaration: it starts at column 0 of the line the declaration starts
    on, ends at column 0 of the line after the one the declaration ends on,
    and the range of the declaration lies inside it. *)
Theorem deletion_covers_the_lines_of_the_statement sourceFile d :
  vscode.start (deletionRange sourceFile d)
  = vscode.mkPosition (vscode.line (vscode.start (getRange sourceFile (decl_range d)))) 0 ∧
  vscode.end_ (deletionRange sourceFile d)
  = vscode.mkPosition (vscode.line (vscode.end_ (getRange sourceFile (decl_range d))) + 1) 0 ∧
  vscode.isBeforeOrEqual (vscode.start (deletionRange sourceFile d))
                         (vscode.start (getRange sourceFile (decl_range d))) = true ∧
  vscode.isBeforeOrEqual (vscode.end_ (getRange sourceFile (decl_range d)))
                         (vscode.end_ (deletionRange sourceFile d)) = true.
Proof.
  unfold deletionRange. set (r := getRange sourceFile (decl_range d)).
  assert (vscode.line (vscode.start r) ≤ vscode.line (vscode.end_ r)) as Hlines.
  { apply isBeforeOrEqual_line. unfold r, getRange. apply newRange_normalised. }
  rewrite newRange_ordered by (apply isBeforeOrEqual_lines; simpl; lia).
  cbn [vscode.start vscode.end_]. split; [done|]. split; [done|]. split.
  - unfold vscode.isBeforeOrEqual. simpl.
    repeat case_decide; try done; try lia; apply bool_decide_eq_true_2; lia.
  - apply isBeforeOrEqual_lines. simpl. lia.
Qed.

(** X10.  [getRange] keeps the order of the text: the range of a node that
    lies inside another node (a specifier inside its declaration) lies
    inside the range of that node, and no range is reversed. *)
Theorem getRange_keeps_nesting sourceFile outer inner :
  tr_start outer ≤ tr_start inner →
  tr_start inner ≤ tr_end inner →
  tr_end inner ≤ tr_end outer →
  vscode.isBeforeOrEqual (vscode.start (getRange sourceFile outer))
                         (vscode.start (getRange sourceFile inner)) = true ∧
  vscode.isBeforeOrEqual (vscode.start (getRange sourceFile inner))
                         (vscode.end_ (getRange sourceFile inner)) = true ∧
  vscode.isBeforeOrEqual (vscode.end_ (getRange sourceFile inner))
                         (vscode.end_ (getRange sourceFile outer)) = true.
Proof.
  intros H1 H2 H3. rewrite !getRange_ordered by lia. cbn [vscode.start vscode.end_].
  split; [|split]; by apply positionOf_mono.
Qed.

Lemma getRange_keeps_nesting_witness :
  getRange Inputs.multiLineUsed (mkTextRange 0 31)
  = vscode.mkRange (vscode.mkPosition 0 0) (vscode.mkPosition 3 13) ∧
  getRange Inputs.multiLineUsed (mkTextRange 16 17)
  = vscode.mkRange (vscode.mkPosition 2 2) (vscode.mkPosition 2 3) ∧
  (vscode.isBeforeOrEqual (vscode.start (getRange Inputs.multiLineUsed (mkTextRange 0 31)))
                          (vscode.start (getRange Inputs.multiLineUsed (mkTextRange 16 17)))
   = true ∧
   vscode.isBeforeOrEqual (vscode.start (getRange Inputs.multiLineUsed (mkTextRange 16 17)))
                          (vscode.end_ (getRange Inputs.multiLineUsed (mkTextRange 16 17)))
   = true ∧
   vscode.isBeforeOrEqual (vscode.end_ (getRange Inputs.multiLineUsed (mkTextRange 16 17)))
                          (vscode.end_ (getRange Inputs.multiLineUsed (mkTextRange 0 31)))
   = true).
Proof.
  split; [vm_compute; reflexivity|]. split; [vm_compute; reflexivity|].
  apply (getRange_keeps_nesting Inputs.multiLineUsed (mkTextRange 0 31) (mkTextRange 16 17));
    simpl; lia.
Defined.

(** ** Analysing the rewritten file again *)

Lemma analyzeFile_nil_of_used sourceFile :
  forallb (λ symbol, negb (unusedIn sourceFile symbol)) (importedSymbols sourceFile) = true →
  analyzeFile sourceFile = [].
Proof.
  intros Hused. unfold analyzeFile, unusedImportsByDeclaration, unusedSymbols.
  fold (unusedIn sourceFile). rewrite filter_none; [done|].
  intros s Hs. rewrite forallb_forall in Hused.
  by apply negb_true_iff, Hused, list_elem_of_In.
Qed.


Lemma spelledIn_shape x n : spelledIn x n = spelledInShape x (shapeOf n).
Proof.
  induction n as [i|d|kind r children IH] using Node_nested_ind; simpl; [done..|].
  induction IH as [|c cs Hc _ IHcs]; simpl; [done|]. by rewrite Hc, IHcs.
Qed.

Lemma names_of_shape index n : name <$> symbolsOfChild index n = namesOfShape (shapeOf n).
Proof.
  destruct n as [i|d|kind r children]; simpl; [done| |done].
  destruct (importClause d) as [clause|]; simpl; [|done].
  unfold symbolsOfClause. rewrite fmap_app. f_equal.
  - by destruct (clause_name clause).
  - destruct (clause_namedBindings clause) as [[r elems|r x]|]; simpl; [|done..].
    rewrite fmap_imap. exact (imap_const (λ element, id_text (spec_name element)) elems).
Qed.

Lemma surviving_node_used sourceFile index n symbol :
  symbol ∈ symbolsOfChild index n →
  node symbol ∉ unusedNodesOf sourceFile index n →
  name symbol ∈ allIdentifiers sourceFile.
Proof.
  intros Hs Hnot. destruct (decide (name symbol ∈ allIdentifiers sourceFile)) as [|Hunused];
    [done|].
  exfalso. apply Hnot. unfold unusedNodesOf.
  apply list_elem_of_fmap_2, list_elem_of_In, filter_In.
  split; [by apply list_elem_of_In|]. by apply negb_true_iff, bool_decide_eq_false.
Qed.

Lemma entryOfStatement_Some sourceFile index n declaration unusedNodes :
  entryOfStatement sourceFile (index, n) = Some (declaration, unusedNodes) →
  n = ImportDeclarationNode (snd declaration) ∧ fst declaration = index ∧
  unusedNodes = unusedNodesOf sourceFile index n.
Proof.
  unfold entryOfStatement. simpl. destruct n as [i|d|kind r children]; [done| |done].
  destruct (unusedNodesOf sourceFile index (ImportDeclarationNode d)) eqn:Hu; [done|].
  by intros [= <- <-].
Qed.

Lemma rebuiltShape_surviving sourceFile declaration unusedNodes :
  rebuiltShape sourceFile declaration unusedNodes
  = ImportShape
      (Some (match survivingDefault sourceFile declaration unusedNodes with
             | Some _ => id_text <$> (importClause (snd declaration) ≫= clause_name)
             | None => None
             end,
             match survivingSpecifiers declaration unusedNodes with
             | [] => None
             | kept => Some (NamedShape ((λ s, id_text (spec_name (snd s))) <$> kept))
             end)).
Proof.
  unfold rebuiltShape.
  rewrite hasUsedSpecifiers_surviving, usedSpecifiers_surviving.
  rewrite <- defaultImportName_surviving.
  destruct (defaultImportName sourceFile declaration unusedNodes) as [d|]; simpl;
    [destruct (negb (String.eqb d ""))|];
    by destruct (survivingSpecifiers declaration unusedNodes).
Qed.

(** Every name bound in the text built for a declaration is the name of a
    symbol that is used. *)
Lemma rebuilt_names_used sourceFile index d x :
  x ∈ namesOfShape (rebuiltShape sourceFile (index, d)
                      (unusedNodesOf sourceFile index (ImportDeclarationNode d))) →
  x ∈ allIdentifiers sourceFile.
Proof.
  set (unusedNodes := unusedNodesOf sourceFile index (ImportDeclarationNode d)).
  rewrite rebuiltShape_surviving.
  unfold namesOfShape, survivingDefault, survivingSpecifiers. simpl.
  destruct (importClause d) as [clause|] eqn:Hclause; simpl;
    [|by intros ?%elem_of_nil].
  assert (∀ slot, nameInSlot clause slot = Some x →
                  mkNodeRef index slot ∉ unusedNodes →
                  x ∈ allIdentifiers sourceFile) as Hused.
  { intros slot Hname Hnot.
    apply (surviving_node_used sourceFile index (ImportDeclarationNode d)
             (mkImportedSymbol x (mkNodeRef index slot) (index, d))); [|done].
    simpl. rewrite Hclause. by apply symbolsOfClause_elem. }
  intros [Hx|Hx]%elem_of_app.
  - destruct (clause_name clause) as [default|] eqn:Hdefault;
      [|by apply elem_of_nil in Hx].
    case_bool_decide as Hnot; [by apply elem_of_nil in Hx|].
    destruct (String.eqb _ _); [by apply elem_of_nil in Hx|].
    apply list_elem_of_singleton in Hx as ->.
    apply (Hused SlotClauseName); [|done]. simpl. by rewrite Hdefault.
  - destruct (clause_namedBindings clause) as [[r elems|r ns]|] eqn:Hbindings;
      [|by apply elem_of_nil in Hx..].
    destruct (List.filter _ _) as [|kept0 kept] eqn:Hkept; [by apply elem_of_nil in Hx|].
    assert (x ∈ (λ s : nat * ImportSpecifier, id_text (spec_name (snd s)))
                  <$> (kept0 :: kept)) as Hx' by exact Hx.
    rewrite <- Hkept in Hx'. clear Hkept Hx.
    apply list_elem_of_fmap in Hx' as ([i e] & -> & He). simpl.
    apply list_elem_of_In, filter_In in He as [He Hnot%bool_decide_eq_true].
    apply list_elem_of_In, elem_of_lookup_imap in He as (i' & e' & [= <- <-] & Hi).
    apply (Hused (SlotElement i)); [|done]. simpl. by rewrite Hbindings, Hi.
Qed.

(** Every name bound in what the edits leave is the name of a symbol that
    is used. *)
Lemma rewritten_names_used sourceFile index n shape x :
  rewrittenShape sourceFile (index, n) = Some shape →
  x ∈ namesOfShape shape →
  x ∈ allIdentifiers sourceFile.
Proof.
  unfold rewrittenShape.
  destruct (entryOfStatement sourceFile (index, n)) as [[[index' d] unusedNodes]|] eqn:Hentry.
  - apply entryOfStatement_Some in Hentry as (-> & Hindex & ->). simpl in Hindex. subst index'.
    cbn [snd]. intros Hshape.
    assert (shape = rebuiltShape sourceFile (index, d)
                      (unusedNodesOf sourceFile index (ImportDeclarationNode d))) as ->.
    { destruct (createEdit _ _ _) as [e|]; [destruct (isDeletion e); [done|]|];
        by injection Hshape as <-. }
    apply rebuilt_names_used.
  - intros [= <-]. simpl. rewrite <- (names_of_shape index n).
    intros (symbol & -> & Hs)%list_elem_of_fmap.
    apply (surviving_node_used sourceFile index n); [done|].
    unfold entryOfStatement in Hentry. simpl in Hentry.
    destruct n as [i|d|kind r children]; try by apply elem_of_nil in Hs.
    destruct (unusedNodesOf sourceFile index (ImportDeclarationNode d)); [|done].
    apply not_elem_of_nil.
Qed.

(** Every identifier spelled outside the import declarations is still
    spelled in what the edits leave. *)
Lemma rewritten_spells sourceFile x :
  spelledOutsideImports sourceFile x = true →
  existsb (spelledInShape x) (rewrittenShapes sourceFile) = true.
Proof.
  unfold spelledOutsideImports. intros (n & Hn & Hx)%existsb_exists.
  apply list_elem_of_In, list_elem_of_lookup_1 in Hn as [index Hindex].
  apply existsb_exists. exists (shapeOf n). split; [|by rewrite <- spelledIn_shape].
  apply list_elem_of_In, list_elem_of_omap. exists (index, n).
  split; [by apply (elem_of_lookup_imap_2 pair)|].
  unfold rewrittenShape, entryOfStatement. simpl. by destruct n.
Qed.

Lemma analyzeFile_spec sourceFile :
  analyzeFile sourceFile
  = omap (λ entry : DeclRef * list NodeRef, editOfEntry sourceFile (fst entry) (snd entry))
         (unusedImportsByDeclaration sourceFile).
Proof.
  unfold analyzeFile.
  induction (unusedImportsByDeclaration sourceFile) as [|entry m IH]; [done|].
  csimpl. rewrite createEdit_spec.
  destruct (editOfEntry sourceFile (fst entry) (snd entry)); [f_equal|]; exact IH.
Qed.




(** ** The commands of the extension *)

Import Extension.

Lemma split_last separator s :
  ∃ pieces piece prefix,
    split separator s = pieces ++ [piece] ∧
    hasChar separator piece = false ∧
    s = prefix +:+ piece ∧
    ((pieces = [] ∧ prefix = "") ∨
     (pieces ≠ [] ∧ ∃ p, prefix = p +:+ String separator "")).
Proof.
  induction s as [|c s (pieces & piece & prefix & Hsplit & Hpiece & -> & Hprefix)]; simpl.
  - exists [], "", "". repeat split; auto.
  - rewrite Hsplit. destruct (Ascii.eqb c separator) eqn:Hc.
    + apply Ascii.eqb_eq in Hc as ->.
      exists ("" :: pieces), piece, (String separator prefix). repeat split; try done.
      right. split; [done|]. destruct Hprefix as [[_ ->]|(_ & p & ->)].
      * by exists "".
      * by exists (String separator p).
    + destruct Hprefix as [[-> ->]|(Hne & p & ->)].
      * exists [], (String c piece), "". simpl. rewrite Hc, Hpiece. repeat split; auto.
      * destruct pieces as [|h t]; [done|].
        exists (String c h :: t), piece, (String c (p +:+ String separator "")).
        repeat split; try done. right. split; [done|]. by exists (String c p).
Qed.

Lemma hasChar_app c s t : hasChar c (s +:+ t) = hasChar c s || hasChar c t.
Proof. induction s as [|c' s IH]; simpl; [done|]. by rewrite IH, orb_assoc. Qed.

Lemma shownName_segments name :
  hasChar backslash (shownName name) = false ∧
  ∃ prefix,
    name = prefix +:+ shownName name ∧
    (prefix = "" ∨ ∃ p, prefix = p +:+ String backslash "").
Proof.
  unfold shownName.
  destruct (split_last backslash name)
    as (pieces & piece & prefix & -> & Hpiece & -> & Hprefix).
  rewrite last_snoc. simpl. split; [done|]. exists prefix. split; [done|].
  destruct Hprefix as [[_ ->]|(_ & p & ->)]; [by left|right; by exists p].
Qed.

(** X11.  The name shown in the messages is the part of the file name
    after its last backslash: it has no backslash, and the file name is that
    part after a prefix that is empty or ends with a backslash. *)
Theorem shownName_is_the_last_segment name :
  hasChar backslash (shownName name) = false ∧
  ∃ prefix,
    name = prefix +:+ shownName name ∧
    (prefix = "" ∨ ∃ p, prefix = p +:+ String backslash "").
Proof. apply shownName_segments. Qed.

(** X12.  A file name without a backslash, such as a path with forward
    slashes, is shown whole. *)
Theorem shownName_without_backslash name :
  hasChar backslash name = false → shownName name = name.
Proof.
  intros Hnone. destruct (shownName_segments name) as [_ (prefix & Hname & Hp)].
  destruct Hp as [->|(p & ->)]; [done|].
  rewrite Hname, !hasChar_app in Hnone. simpl in Hnone.
  by rewrite !orb_true_r in Hnone.
Qed.

Lemma shownName_without_backslash_witness :
  shownName "/home/u/src/a.ts" = "/home/u/src/a.ts" ∧
  shownName ("C:" +:+ String backslash "src" +:+ String backslash "a.ts") = "a.ts".
Proof.
  split; [|reflexivity]. apply (shownName_without_backslash "/home/u/src/a.ts"). reflexivity.
Defined.

(** X13.  A document none of whose import bindings is unused is left alone:
    [processFile] returns false and the document stays as it is, without
    the host being asked for anything. *)
Theorem processFile_leaves_used_imports_alone createSourceFile applyEdit document :
  forallb (λ symbol,
             negb (unusedIn (createSourceFile (fileName document) (getText document)) symbol))
          (importedSymbols (createSourceFile (fileName document) (getText document))) = true →
  processFile createSourceFile applyEdit document = Some (document, false).
Proof.
  intros Hused. unfold processFile. by rewrite (analyzeFile_nil_of_used _ Hused).
Qed.

Lemma processFile_leaves_used_imports_alone_witness :
  processFile Cases.createSourceFile hostApplyEdit (Cases.documentOf "a.ts" Inputs.shorthand)
  = Some (Cases.documentOf "a.ts" Inputs.shorthand, false).
Proof.
  apply (processFile_leaves_used_imports_alone Cases.createSourceFile hostApplyEdit
           (Cases.documentOf "a.ts" Inputs.shorthand)).
  vm_compute. reflexivity.
Defined.

(** X14.  The value [processFile] returns tells that there were edits, not
    that the document changed: whenever the analysis returns at least one
    edit, [processFile] hands the edits to the host and returns true with
    the document as the host left it, whatever the host did with them (it
    may have refused the batch and changed nothing); it throws only if the
    host does. *)
Theorem processFile_reports_edits_not_changes createSourceFile applyEdit document :
  analyzeFile (createSourceFile (fileName document) (getText document)) ≠ [] →
  processFile createSourceFile applyEdit document
  = (λ after, (after, true))
      <$> applyEdit document
            (analyzeFile (createSourceFile (fileName document) (getText document))).
Proof.
  intros Hedits. unfold processFile.
  destruct (analyzeFile _) as [|e edits]; [done|].
  rewrite decide_True by (simpl; lia). by destruct (applyEdit document (e :: edits)).
Qed.

Lemma processFile_reports_edits_not_changes_witness :
  Host.applyEdits (text Inputs.sharedLine) (analyzeFile Inputs.sharedLine) = None ∧
  processFile Cases.createSourceFile hostApplyEdit (Cases.documentOf "a.ts" Inputs.sharedLine)
  = Some (Cases.documentOf "a.ts" Inputs.sharedLine, true) ∧
  processFile Cases.createSourceFile hostApplyEdit (Cases.documentOf "a.ts" Inputs.sharedLine)
  = (λ after, (after, true))
      <$> hostApplyEdit (Cases.documentOf "a.ts" Inputs.sharedLine)
            (analyzeFile
               (Cases.createSourceFile (fileName (Cases.documentOf "a.ts" Inputs.sharedLine))
                  (getText (Cases.documentOf "a.ts" Inputs.sharedLine)))).
Proof.
  split; [vm_compute; reflexivity|]. split; [vm_compute; reflexivity|].
  apply (processFile_reports_edits_not_changes Cases.createSourceFile hostApplyEdit
           (Cases.documentOf "a.ts" Inputs.sharedLine)).
  vm_compute. discriminate.
Defined.

Lemma sweepFrom_closed createSourceFile applyEdit token openTextDocument files :
  ∀ i n acc opened ending,
    n ≤ length files →
    forallb (λ j, negb (token j)) (seq i n) = true →
    openTextDocument <$> take n files = Some <$> opened →
    match files !! n with
    | None => ending = Finished
    | Some file =>
        if token (i + n) then ending = Finished
        else openTextDocument file = None ∧ ending = Thrown
    end →
    sweepFrom createSourceFile applyEdit token openTextDocument i files acc
    = (mkSweep
         (documents acc ++ (afterProcessing createSourceFile applyEdit <$> opened))
         (processedCount acc
          + length (List.filter (reportsChange createSourceFile applyEdit) opened))
         (errorCount acc
          + length (List.filter (raises createSourceFile applyEdit) opened)),
       ending).
Proof.
  induction files as [|file rest IH]; intros i n acc opened ending Hn Hrun Hopened Hstop.
  - simpl in Hn. assert (n = 0) as -> by lia. simpl in Hopened, Hstop.
    symmetry in Hopened. apply fmap_nil_inv in Hopened as ->. subst ending.
    destruct acc. simpl. by rewrite app_nil_r, !Nat.add_0_r.
  - destruct n as [|n].
    + simpl in Hopened, Hstop. symmetry in Hopened. apply fmap_nil_inv in Hopened as ->.
      rewrite Nat.add_0_r in Hstop. destruct acc. simpl.
      rewrite app_nil_r, !Nat.add_0_r.
      destruct (token i); [by subst ending|]. by destruct Hstop as [-> ->].
    + simpl in Hrun. apply andb_true_iff in Hrun as [Hi%negb_true_iff Hrun].
      simpl in Hn, Hopened, Hstop. destruct opened as [|document opened]; [done|].
      injection Hopened as Hfile Hopened.
      replace (i + S n) with (S i + n) in Hstop by lia.
      simpl. rewrite Hi, Hfile.
      unfold afterProcessing at 1, reportsChange at 1, raises at 1.
      destruct (processFile createSourceFile applyEdit document) as [[after [|]]|];
        rewrite (IH (S i) n _ opened ending) by (done || lia);
        simpl; rewrite <- ?app_assoc; simpl; repeat f_equal; lia.
Qed.

(** X15.  The sweep of the project command takes the files in order and
    stops at the first file for which cancellation is requested, or whose
    document cannot be opened: a cancellation ends the loop, a failing
    [openTextDocument] throws out of the loop and of the command.  The
    files before that one are opened and processed one by one, that file
    and the files after it are not opened, and the counters count, among
    the documents processed, those for which [processFile] returned true
    and those for which it threw. *)
Theorem sweep_stops_at_cancellation_or_failing_open createSourceFile applyEdit token
    openTextDocument files n opened ending :
  0 < length files →
  n ≤ length files →
  forallb (λ j, negb (token j)) (seq 0 n) = true →
  openTextDocument <$> take n files = Some <$> opened →
  match files !! n with
  | None => ending = Finished
  | Some file =>
      if token n then ending = Finished
      else openTextDocument file = None ∧ ending = Thrown
  end →
  cleanProject createSourceFile applyEdit token openTextDocument files
  = Some (mkSweep
            (afterProcessing createSourceFile applyEdit <$> opened)
            (length (List.filter (reportsChange createSourceFile applyEdit) opened))
            (length (List.filter (raises createSourceFile applyEdit) opened)),
          ending).
Proof.
  intros Hsome Hn Hrun Hopened Hstop. unfold cleanProject.
  destruct files as [|file rest] eqn:Hfiles; [simpl in Hsome; lia|].
  rewrite <- Hfiles in *. f_equal.
  by rewrite (sweepFrom_closed _ _ _ _ files 0 n _ opened ending).
Qed.

Lemma sweep_stops_at_cancellation_or_failing_open_witness :
  cleanProject Cases.createSourceFile hostApplyEdit Cases.neverCancelled
    Cases.openTextDocument ["a.ts"; "b.ts"; "c.ts"]
  = Some (mkSweep [Cases.documentOf "a.ts" Inputs.scenario1Rewritten] 1 0, Thrown) ∧
  cleanProject Cases.createSourceFile hostApplyEdit Cases.cancelledAfterFirst
    Cases.openTextDocument ["a.ts"; "b.ts"; "c.ts"]
  = Some (mkSweep [Cases.documentOf "a.ts" Inputs.scenario1Rewritten] 1 0, Finished) ∧
  cleanProject Cases.createSourceFile hostApplyEdit Cases.neverCancelled
    Cases.openTextDocument ["a.ts"; "b.ts"; "c.ts"]
  = Some (mkSweep
            (afterProcessing Cases.createSourceFile hostApplyEdit
               <$> [Cases.documentOf "a.ts" Inputs.scenario1])
            (length (List.filter (reportsChange Cases.createSourceFile hostApplyEdit)
                       [Cases.documentOf "a.ts" Inputs.scenario1]))
            (length (List.filter (raises Cases.createSourceFile hostApplyEdit)
                       [Cases.documentOf "a.ts" Inputs.scenario1])),
          Thrown).
Proof.
  split; [vm_compute; reflexivity|]. split; [vm_compute; reflexivity|].
  apply (sweep_stops_at_cancellation_or_failing_open Cases.createSourceFile hostApplyEdit
           Cases.neverCancelled Cases.openTextDocument ["a.ts"; "b.ts"; "c.ts"] 1
           [Cases.documentOf "a.ts" Inputs.scenario1] Thrown);
    [simpl; lia|simpl; lia|reflexivity|reflexivity|simpl; split; reflexivity].
Defined.

(** X16.  The command on the active editor changes a document only if its
    language is TypeScript or JavaScript and the analysis of its text
    returned at least one edit; in every other case the document is as it
    was. *)
Theorem cleanCurrentFile_changes_only_analysed_scripts createSourceFile applyEdit
    document after message :
  cleanCurrentFile createSourceFile applyEdit (Some document) = (Some after, message) →
  after ≠ document →
  (languageId document = "typescript" ∨ languageId document = "javascript") ∧
  analyzeFile (createSourceFile (fileName document) (getText document)) ≠ [] ∧
  applyEdit document (analyzeFile (createSourceFile (fileName document) (getText document)))
  = Some after.
Proof.
  unfold cleanCurrentFile, processFile. intros Hclean Hchanged.
  destruct (String.eqb (languageId document) "typescript") eqn:Hts;
    destruct (String.eqb (languageId document) "javascript") eqn:Hjs;
    simpl in Hclean;
    try (injection Hclean as <- _; done);
    (split; [first [left; by apply String.eqb_eq | right; by apply String.eqb_eq]|]);
    (destruct (analyzeFile _) as [|e edits];
     [simpl in Hclean; injection Hclean as <- _; done|]);
    (split; [done|]);
    rewrite decide_True in Hclean by (simpl; lia); simpl in Hclean;
    (destruct (applyEdit document (e :: edits)) as [d|];
     simpl in Hclean; injection Hclean as <- _; done).
Qed.

Lemma cleanCurrentFile_changes_only_analysed_scripts_witness :
  cleanCurrentFile Cases.createSourceFile hostApplyEdit
    (Some (Cases.documentOf "a.ts" Inputs.scenario1))
  = (Some (Cases.documentOf "a.ts" Inputs.scenario1Rewritten),
     InformationMessage "Unused imports removed from a.ts") ∧
  ((languageId (Cases.documentOf "a.ts" Inputs.scenario1) = "typescript" ∨
    languageId (Cases.documentOf "a.ts" Inputs.scenario1) = "javascript") ∧
   analyzeFile (Cases.createSourceFile (fileName (Cases.documentOf "a.ts" Inputs.scenario1))
                  (getText (Cases.documentOf "a.ts" Inputs.scenario1))) ≠ [] ∧
   hostApplyEdit (Cases.documentOf "a.ts" Inputs.scenario1)
     (analyzeFile (Cases.createSourceFile (fileName (Cases.documentOf "a.ts" Inputs.scenario1))
                     (getText (Cases.documentOf "a.ts" Inputs.scenario1))))
   = Some (Cases.documentOf "a.ts" Inputs.scenario1Rewritten)).
Proof.
  split; [vm_compute; reflexivity|].
  apply (cleanCurrentFile_changes_only_analysed_scripts Cases.createSourceFile hostApplyEdit
           (Cases.documentOf "a.ts" Inputs.scenario1)
           (Cases.documentOf "a.ts" Inputs.scenario1Rewritten)
           (InformationMessage "Unused imports removed from a.ts"));
    [vm_compute; reflexivity|vm_compute; discriminate].
Defined.
